(** * expire-sh: certificate and domain registration expirations

    A shallow embedding of the expiration engine of expire.sh
    (cert.go, whois.go, certexp.go) and the properties of its
    specification.

    - [GoTime]  : the part of Go's [time.Time] the program uses.
    - [Cert]    : [getCertExpiration] (cert.go).
    - [Whois]   : [getDomainExpiration] and [expirationKeywords] (whois.go).
    - [Certexp] : [Expiration], [Expiration.OK], [getExpirations] and the
                  status computation of [serveExpirations] (certexp.go). *)

From Stdlib Require Import ZArith Lia Bool Ascii String.
From stdpp Require Import gmap strings list fin_maps.

(** Go's [error] interface value: [None] is [nil], [Some msg] an error
    carrying its message. *)
Definition error : Type := option string.

(* ===================================================================== *)
(** ** time.Time *)
(* ===================================================================== *)

Module GoTime.

(** The program only creates the zero [time.Time{}], compares instants
    with [Before] and tests [IsZero]; all three depend on the instant
    alone.  An instant is the number of nanoseconds elapsed since
    January 1, year 1, 00:00:00 UTC, the instant of the zero value. *)
Definition Time : Type := Z.

(** [time.Time{}] *)
Definition zero : Time := 0%Z.

(** [t.IsZero()] *)
Definition IsZero (t : Time) : bool := (t =? 0)%Z.

(** [t.Before(u)] *)
Definition Before (t u : Time) : bool := (t <? u)%Z.

(** One nanosecond, the resolution of [time.Duration]. *)
Definition Nanosecond : Z := 1%Z.

(** [t.Add(d)] *)
Definition Add (t : Time) (d : Z) : Time := (t + d)%Z.

(** Days from January 1, year 1 to the given civil date. *)
Definition daysFromCivil (y m d : Z) : Z :=
  let y' := (if m <=? 2 then y - 1 else y)%Z in
  let era := (y' / 400)%Z in
  let yoe := (y' - era * 400)%Z in
  let mp := (if m <=? 2 then m + 9 else m - 3)%Z in
  let doy := ((153 * mp + 2) / 5 + d - 1)%Z in
  let doe := (yoe * 365 + yoe / 4 - yoe / 100 + doy)%Z in
  (era * 146097 + doe - 306)%Z.

(** [time.Date(y, m, d, 0, 0, 0, 0, time.UTC)] *)
Definition Date (y m d : Z) : Time :=
  (daysFromCivil y m d * 86400 * 1000000000)%Z.

End GoTime.

Import GoTime.

(* ===================================================================== *)
(** ** cert.go *)
(* ===================================================================== *)

Module Cert.

(** [x509.Certificate], of which only [NotAfter] is read. *)
Record Certificate : Type := mkCertificate { NotAfter : Time }.

(** What dialing [hostname:443] and the TLS handshake leave behind: the
    dial error, the handshake error, or the connection state with the
    certificates the peer sent, in the order it sent them. *)
Inductive Conn : Type :=
| DialError (err : string)
| HandshakeError (err : string)
| ConnectionState (PeerCertificates : list Certificate).

(** One iteration of the loop over [PeerCertificates] (cert.go 33-37). *)
Definition minStep (minExpires : Time) (cert : Certificate) : Time :=
  if IsZero minExpires || Before (NotAfter cert) minExpires
  then NotAfter cert
  else minExpires.

(** The loop, started from [var minExpires time.Time]. *)
Definition minExpiresOf (certs : list Certificate) : Time :=
  foldl minStep zero certs.

(** [getCertExpiration], as a function of the outcome of the network
    steps. *)
Definition getCertExpiration (conn : Conn) : Time * error :=
  match conn with
  | DialError err => (zero, Some err)
  | HandshakeError err => (zero, Some err)
  | ConnectionState certs =>
      if (length certs =? 0)%nat
      then (zero, Some "weird connection state"%string)
      else (minExpiresOf certs, None)
  end.

(** The specification's reading of the result: [m] is the least
    [NotAfter] of the chain. *)
Definition is_min_NotAfter (m : Time) (certs : list Certificate) : Prop :=
  (exists c, c ∈ certs /\ NotAfter c = m) /\
  (forall c, c ∈ certs -> (m <= NotAfter c)%Z).

End Cert.

(* ===================================================================== *)
(** ** whois.go *)
(* ===================================================================== *)

Module Whois.

(** A Go call either returns or panics. *)
Inductive Outcome (A : Type) : Type :=
| Return (a : A)
| Panic.
Arguments Return {A} a.
Arguments Panic {A}.

Definition expirationKeywords : list string :=
  [ "expiry"; "expiration"; "expires"; "registered through"; "expired";
    "expire"; "expired"; "domain_datebilleduntil"; "paid-till";
    "renewal date"; "fecha de vencimiento" ]%string.

(** [strings.Contains(s, substr)] on byte strings. *)
Fixpoint Contains (s substr : string) : bool :=
  String.prefix substr s ||
  match s with
  | EmptyString => false
  | String _ s' => Contains s' substr
  end.

(** The slice expression [s[i:]]: the bytes from index [i] on, and a
    run-time panic when [i] exceeds [len(s)]. *)
Fixpoint sliceFrom (s : string) (i : nat) : option string :=
  match i with
  | O => Some s
  | S i' =>
      match s with
      | EmptyString => None
      | String _ s' => sliceFrom s' i'
      end
  end.

(** What the whois client hands back: an error from building the
    request, fetching, or reading the response; or the response, as
    its text ([response.Text()]) and as the lines that the
    [bufio.Scanner] over [response.Reader()] yields, in order. *)
Inductive Response : Type :=
| QueryError (err : string)
| Body (text : string) (lines : list string).

(** The one message [getDomainExpiration] writes with [log.Printf]. *)
Inductive LogEntry : Type :=
| CannotDetermine (domain text : string).

Definition errCannotDetermine : string :=
  "cannot determine expiration date from whois record".

Section Scan.

(** [strings.ToLower] and [dateparse.ParseAny], both library
    functions. *)
Variable ToLower : string -> string.
Variable ParseAny : string -> Time * error.

(** [for i := 0; i < len(line); i++], with [n] iterations left;
    [text] is [s.Text()].  [Return None] means that the loop ran to
    its end. *)
Fixpoint scanOffsets (text : string) (i n : nat) : Outcome (option Time) :=
  match n with
  | O => Return None
  | S n' =>
      match sliceFrom text i with
      | None => Panic
      | Some possibleDateStr =>
          match ParseAny possibleDateStr with
          | (possibleDate, None) => Return (Some possibleDate)
          | (_, Some _) => scanOffsets text (S i) n'
          end
      end
  end.

(** [for _, keyword := range expirationKeywords] *)
Fixpoint scanKeywords (text line : string) (keywords : list string)
  : Outcome (option Time) :=
  match keywords with
  | [] => Return None
  | keyword :: keywords' =>
      if Contains line keyword then
        match scanOffsets text 0 (String.length line) with
        | Return None => scanKeywords text line keywords'
        | r => r
        end
      else scanKeywords text line keywords'
  end.

(** [for s.Scan()] *)
Fixpoint scanLines (lines : list string) : Outcome (option Time) :=
  match lines with
  | [] => Return None
  | text :: lines' =>
      let line := ToLower text in
      match scanKeywords text line expirationKeywords with
      | Return None => scanLines lines'
      | r => r
      end
  end.

(** [getDomainExpiration]: the returned pair and what was logged. *)
Definition getDomainExpiration (domain : string) (response : Response)
  : Outcome ((Time * error) * list LogEntry) :=
  match response with
  | QueryError err => Return ((zero, Some err), [])
  | Body text lines =>
      match scanLines lines with
      | Panic => Panic
      | Return (Some possibleDate) => Return ((possibleDate, None), [])
      | Return None =>
          Return ((zero, Some errCannotDetermine),
                  [CannotDetermine domain text])
      end
  end.

(** *** The scan as the specification words it *)

(** A line matches when its lower-cased copy contains a keyword. *)
Definition keywordLine (text : string) : bool :=
  existsb (Contains (ToLower text)) expirationKeywords.

(** The date parsed at offset [i] of the original line, if any. *)
Definition parseAt (text : string) (i : nat) : option Time :=
  match sliceFrom text i with
  | Some possibleDateStr =>
      match ParseAny possibleDateStr with
      | (possibleDate, None) => Some possibleDate
      | (_, Some _) => None
      end
  | None => None
  end.

(** The first of the given offsets at which a date parses. *)
Fixpoint firstParse (text : string) (offsets : list nat) : option Time :=
  match offsets with
  | [] => None
  | i :: offsets' =>
      match parseAt text i with
      | Some d => Some d
      | None => firstParse text offsets'
      end
  end.

(** Every character offset of the original line. *)
Definition offsetsOf (text : string) : list nat :=
  seq 0 (String.length text).

(** Spec: lines in order; on a keyword line every offset of the
    original line; the first date wins. *)
Fixpoint specScan (lines : list string) : option Time :=
  match lines with
  | [] => None
  | text :: lines' =>
      if keywordLine text then
        match firstParse text (offsetsOf text) with
        | Some d => Some d
        | None => specScan lines'
        end
      else specScan lines'
  end.

(** No keyword line of the body yields a date at any offset. *)
Definition noDate (lines : list string) : Prop :=
  forall text i, text ∈ lines -> keywordLine text = true ->
                 parseAt text i = None.

End Scan.

(** *** Sample instances of the library functions *)

Definition lowerASCII (c : ascii) : ascii :=
  let n := nat_of_ascii c in
  if (65 <=? n)%nat && (n <=? 90)%nat then ascii_of_nat (n + 32) else c.

(** [strings.ToLower] on the strings made of ASCII bytes and of two
    letters outside ASCII, the rest of the Unicode table left out:
    U+023A (UTF-8 bytes C8 BA), whose lower case is U+2C65 (UTF-8
    bytes E2 B1 A5), and U+0130 (UTF-8 bytes C4 B0), whose lower case
    is U+0069, the ASCII letter i. *)
Fixpoint ToLowerSample (s : string) : string :=
  match s with
  | EmptyString => EmptyString
  | String c rest =>
      match rest with
      | String c2 rest2 =>
          if ((nat_of_ascii c =? 200) && (nat_of_ascii c2 =? 186))%nat
          then String (ascii_of_nat 226)
                 (String (ascii_of_nat 177)
                    (String (ascii_of_nat 165) (ToLowerSample rest2)))
          else if ((nat_of_ascii c =? 196) && (nat_of_ascii c2 =? 176))%nat
          then String (ascii_of_nat 105) (ToLowerSample rest2)
          else String (lowerASCII c) (ToLowerSample rest)
      | EmptyString => String (lowerASCII c) EmptyString
      end
  end.

(** The two UTF-8 bytes of U+023A. *)
Definition AStroke : string :=
  String (ascii_of_nat 200) (String (ascii_of_nat 186) EmptyString).

(** The two UTF-8 bytes of U+0130. *)
Definition IDot : string :=
  String (ascii_of_nat 196) (String (ascii_of_nat 176) EmptyString).

(** A keyword line without a date: 11 bytes, 13 once lower-cased. *)
Definition undatedLine : string := "expiry " ++ AStroke ++ AStroke.

(** A keyword line that ends in a date at offset 28: 38 bytes, 28 once
    lower-cased. *)
Definition dottedLine : string :=
  "expires:" ++ IDot ++ IDot ++ IDot ++ IDot ++ IDot
             ++ IDot ++ IDot ++ IDot ++ IDot ++ IDot ++ "2025-01-01".

Definition digit (c : ascii) : option Z :=
  let n := nat_of_ascii c in
  if (48 <=? n)%nat && (n <=? 57)%nat then Some (Z.of_nat (n - 48)) else None.

Definition isLeap (y : Z) : bool :=
  ((y mod 4 =? 0) && negb (y mod 100 =? 0) || (y mod 400 =? 0))%Z.

Definition daysIn (y m : Z) : Z :=
  if (m =? 2)%Z then (if isLeap y then 29 else 28)%Z
  else if ((m =? 4) || (m =? 6) || (m =? 9) || (m =? 11))%Z then 30%Z
  else 31%Z.

Definition errUnknownFormat : string := "Could not find format".

(** A date parser for the one layout [YYYY-MM-DD] (midnight UTC),
    which [dateparse.ParseAny] accepts among many others; every other
    string is rejected. *)
Definition parseYMD (s : string) : Time * error :=
  match s with
  | String y1 (String y2 (String y3 (String y4 (String "-"
      (String m1 (String m2 (String "-"
        (String d1 (String d2 EmptyString))))))))) =>
      match digit y1, digit y2, digit y3, digit y4,
            digit m1, digit m2, digit d1, digit d2 with
      | Some a, Some b, Some c, Some d, Some e, Some f, Some g, Some h =>
          let y := (a * 1000 + b * 100 + c * 10 + d)%Z in
          let m := (e * 10 + f)%Z in
          let dd := (g * 10 + h)%Z in
          if ((1 <=? m) && (m <=? 12) && (1 <=? dd) && (dd <=? daysIn y m))%Z
          then (Date y m dd, None)
          else (zero, Some errUnknownFormat)
      | _, _, _, _, _, _, _, _ => (zero, Some errUnknownFormat)
      end
  | _ => (zero, Some errUnknownFormat)
  end.

End Whois.

(* ===================================================================== *)
(** ** certexp.go: reports and their evaluation *)
(* ===================================================================== *)

Module Certexp.

Record Expiration : Type := mkExpiration {
  Name : string;
  CertificateExpires : Time;
  CertificateError : error;
  Domain : string;
  DomainExpires : Time;
  DomainError : error
}.

(** The zero value of [Expiration], as [make([]Expiration, n)] fills
    the slice. *)
Definition zeroExpiration : Expiration :=
  mkExpiration "" zero None "" zero None.

(** [func (e Expiration) OK(soon time.Time) bool] *)
Definition OK (e : Expiration) (soon : Time) : bool :=
  match CertificateError e with
  | Some _ => false
  | None =>
      if Before (CertificateExpires e) soon then false
      else match DomainError e with
           | Some _ => false
           | None =>
               if Before (DomainExpires e) soon then false else true
           end
  end.

(** The two flags of [serveExpirations] (certexp.go 282-283). *)
Record Flags : Type := mkFlags { hasError : bool; hasExpirationSoon : bool }.

(** The body of the loop over the reports (certexp.go 285-294). *)
Definition flagStep (soon : Time) (f : Flags) (expiration : Expiration) : Flags :=
  let f1 :=
    match CertificateError expiration with
    | Some _ => mkFlags true (hasExpirationSoon f)
    | None =>
        if Before (CertificateExpires expiration) soon
        then mkFlags (hasError f) true
        else f
    end in
  match DomainError expiration with
  | Some _ => mkFlags true (hasExpirationSoon f1)
  | None =>
      if Before (DomainExpires expiration) soon
      then mkFlags (hasError f1) true
      else f1
  end.

Definition scanFlags (expirations : list Expiration) (soon : Time) : Flags :=
  foldl (flagStep soon) (mkFlags false false) expirations.

Inductive Classification : Type := healthy | imminent | failed.

(** The [if hasError ... else if hasExpirationSoon ...] of certexp.go
    312-316. *)
Definition classifyFlags (f : Flags) : Classification :=
  if hasError f then failed
  else if hasExpirationSoon f then imminent
  else healthy.

Definition classify (expirations : list Expiration) (soon : Time) : Classification :=
  classifyFlags (scanFlags expirations soon).

Definition StatusOK : Z := 200.
Definition StatusExpectationFailed : Z := 417.
Definition StatusBadGateway : Z := 502.

(** The status line of the response: no header is written for
    calendars, which leaves the default 200. *)
Definition statusCode (contentType : string) (c : Classification) : Z :=
  if String.eqb contentType "text/calendar" then StatusOK
  else match c with
       | failed => StatusBadGateway
       | imminent => StatusExpectationFailed
       | healthy => StatusOK
       end.

(** A report carries a hard error on one of its two axes. *)
Definition hardError (e : Expiration) : Prop :=
  CertificateError e <> None \/ DomainError e <> None.

(** One of the two dates of a report lies strictly before the cutoff. *)
Definition expiresBefore (soon : Time) (e : Expiration) : Prop :=
  (CertificateExpires e < soon)%Z \/ (DomainExpires e < soon)%Z.

(** Boolean forms: a hard error on a report; a date before the cutoff
    on an axis that has no error (what sets [hasExpirationSoon]). *)
Definition hardErrorb (e : Expiration) : bool :=
  match CertificateError e, DomainError e with
  | None, None => false
  | _, _ => true
  end.

Definition soonb (soon : Time) (e : Expiration) : bool :=
  match CertificateError e with
  | None => Before (CertificateExpires e) soon
  | Some _ => false
  end ||
  match DomainError e with
  | None => Before (DomainExpires e) soon
  | Some _ => false
  end.

(** *** getExpirations *)

(** Field assignments [rv[i].Name = ...] and the like. *)
Definition setName (name : string) (e : Expiration) : Expiration :=
  mkExpiration name (CertificateExpires e) (CertificateError e)
               (Domain e) (DomainExpires e) (DomainError e).

Definition setCertificate (r : Time * error) (e : Expiration) : Expiration :=
  mkExpiration (Name e) (fst r) (snd r)
               (Domain e) (DomainExpires e) (DomainError e).

Definition setDomain (domain : string) (e : Expiration) : Expiration :=
  mkExpiration (Name e) (CertificateExpires e) (CertificateError e)
               domain (DomainExpires e) (DomainError e).

Definition setRegistration (r : Time * error) (e : Expiration) : Expiration :=
  mkExpiration (Name e) (CertificateExpires e) (CertificateError e)
               (Domain e) (fst r) (snd r).

(** [for i, hostname := range hostnames { body }] over a state [St],
    counting [i] up from its start. *)
Fixpoint rangeFrom {St : Type} (body : nat -> string -> St -> St)
    (i : nat) (hostnames : list string) (s : St) : St :=
  match hostnames with
  | [] => s
  | hostname :: hostnames' => rangeFrom body (S i) hostnames' (body i hostname s)
  end.

(** What [getExpirations] leaves behind: the slice it returns, the
    domains handed to [getDomainExpiration] in call order, and the
    state of the outside world. *)
Record Run (World : Type) : Type := mkRun {
  reports : list Expiration;
  lookups : list string;
  world : World
}.
Arguments mkRun {World} _ _ _.
Arguments reports {World} _.
Arguments lookups {World} _.
Arguments world {World} _.

Section Aggregate.

(** The outside world (network, registries, clock) and the two
    lookups against it.  This section is the batch in the runs in which
    every lookup returns its [(time.Time, error)] pair and leaves the
    world changed.  [getDomainExpiration] of whois.go can also panic, and
    [getExpirations] has no [recover]: the call with the panic in it is
    [getExpirationsOutcome] below, which is this batch on every run that
    returns. *)
Context {World : Type}.
Variable getCertExpiration : string -> World -> (Time * error) * World.
Variable getDomainExpiration : string -> World -> (Time * error) * World.

(** [publicsuffix.EffectiveTLDPlusOne] *)
Variable EffectiveTLDPlusOne : string -> string * error.

(** The order in which [range] visits the keys of a map; Go leaves
    it unspecified. *)
Variable rangeOrder : gmap string bool -> list string.

(** certexp.go 154-156 *)
Definition nameLoop (hostnames : list string) (rv : list Expiration)
  : list Expiration :=
  rangeFrom (fun i hostname rv => alter (setName hostname) i rv)
            0 hostnames rv.

(** certexp.go 158-160 *)
Definition certLoop (hostnames : list string)
    (s : list Expiration * World) : list Expiration * World :=
  rangeFrom (fun i hostname '(rv, w) =>
               let '(r, w') := getCertExpiration hostname w in
               (alter (setCertificate r) i rv, w'))
            0 hostnames s.

(** certexp.go 163-171 *)
Definition domainLoop (hostnames : list string)
    (s : gmap string bool * list Expiration)
  : gmap string bool * list Expiration :=
  rangeFrom (fun i hostname '(domains, rv) =>
               match EffectiveTLDPlusOne hostname with
               | (_, Some _) => (domains, rv)
               | (domain, None) =>
                   (<[domain := true]> domains,
                    alter (setDomain domain) i rv)
               end)
            0 hostnames s.

(** certexp.go 175-180 *)
Definition fanOut (domain : string) (r : Time * error)
    (rv : list Expiration) : list Expiration :=
  foldl (fun rv i =>
           match rv !! i with
           | Some e =>
               if String.eqb (Domain e) domain
               then alter (setRegistration r) i rv
               else rv
           | None => rv
           end)
        rv (seq 0 (length rv)).

(** certexp.go 173-181 *)
Definition lookupLoop (keys : list string) (s : Run World) : Run World :=
  foldl (fun s domain =>
           let '(r, w') := getDomainExpiration domain (world s) in
           mkRun (fanOut domain r (reports s))
                 (lookups s ++ [domain]) w')
        s keys.

Definition getExpirations (hostnames : list string) (w : World) : Run World :=
  let rv := replicate (length hostnames) zeroExpiration in
  let rv := nameLoop hostnames rv in
  let '(rv, w) := certLoop hostnames (rv, w) in
  let '(domains, rv) := domainLoop hostnames (∅, rv) in
  lookupLoop (rangeOrder domains) (mkRun rv [] w).

(** *** The same run, told per hostname *)

(** The apex domain of a hostname, when it has one. *)
Definition apexOf (hostname : string) : option string :=
  match EffectiveTLDPlusOne hostname with
  | (domain, None) => Some domain
  | (_, Some _) => None
  end.

(** The certificate lookups of a batch, in hostname order. *)
Fixpoint probeAll (hostnames : list string) (w : World)
  : list (Time * error) * World :=
  match hostnames with
  | [] => ([], w)
  | hostname :: hostnames' =>
      let '(r, w1) := getCertExpiration hostname w in
      let '(rs, w2) := probeAll hostnames' w1 in
      (r :: rs, w2)
  end.

(** The registration lookups for the given domains, in that order. *)
Fixpoint lookupAll (keys : list string) (w : World)
  : list (string * (Time * error)) * World :=
  match keys with
  | [] => ([], w)
  | domain :: keys' =>
      let '(r, w1) := getDomainExpiration domain w in
      let '(rs, w2) := lookupAll keys' w1 in
      ((domain, r) :: rs, w2)
  end.

(** The step of [domainLoop] on one report and on the map. *)
Definition withApex (hostname : string) (e : Expiration) : Expiration :=
  match apexOf hostname with
  | Some domain => setDomain domain e
  | None => e
  end.

Definition addApex (domains : gmap string bool) (hostname : string)
  : gmap string bool :=
  match apexOf hostname with
  | Some domain => <[domain := true]> domains
  | None => domains
  end.

(** The set of apex domains of a batch. *)
Definition apexSet (hostnames : list string) : gmap string bool :=
  foldl addApex ∅ hostnames.

(** One registration result reaching one report. *)
Definition deliver (e : Expiration) (dr : string * (Time * error))
  : Expiration :=
  if String.eqb (Domain e) (fst dr) then setRegistration (snd dr) e else e.

(** The report of a hostname before any registration result. *)
Definition draft (hostname : string) (c : Time * error) : Expiration :=
  withApex hostname (setCertificate c (setName hostname zeroExpiration)).

End Aggregate.

(** *** getExpirations with a lookup that may panic *)

Section Unwinding.

(** [getDomainExpiration] as whois.go has it: a call returns, or it
    panics and the panic unwinds through its caller. *)
Context {World : Type}.
Variable getCertExpiration : string -> World -> (Time * error) * World.
Variable getDomainExpiration :
  string -> World -> Whois.Outcome ((Time * error) * World).
Variable EffectiveTLDPlusOne : string -> string * error.
Variable rangeOrder : gmap string bool -> list string.

(** certexp.go 173-181: a panic of the lookup ends the loop and the
    call. *)
Fixpoint lookupLoopOutcome (keys : list string) (s : Run World)
  : Whois.Outcome (Run World) :=
  match keys with
  | [] => Whois.Return s
  | domain :: keys' =>
      match getDomainExpiration domain (world s) with
      | Whois.Panic => Whois.Panic
      | Whois.Return (r, w') =>
          lookupLoopOutcome keys'
            (mkRun (fanOut domain r (reports s)) (lookups s ++ [domain]) w')
      end
  end.

(** [getExpirations], returning its slice or panicking. *)
Definition getExpirationsOutcome (hostnames : list string) (w : World)
  : Whois.Outcome (Run World) :=
  let rv := replicate (length hostnames) zeroExpiration in
  let rv := nameLoop hostnames rv in
  let '(rv, w) := certLoop getCertExpiration hostnames (rv, w) in
  let '(domains, rv) := domainLoop EffectiveTLDPlusOne hostnames (∅, rv) in
  lookupLoopOutcome (rangeOrder domains) (mkRun rv [] w).

(** The lookup where it returns; where it panics, a value that no
    returning run ever reads. *)
Definition returned (domain : string) (w : World) : (Time * error) * World :=
  match getDomainExpiration domain w with
  | Whois.Return x => x
  | Whois.Panic => ((zero, None), w)
  end.

End Unwinding.

(** The registration lookup of whois.go against the world: the whois
    client fetches the response, [Whois.getDomainExpiration] scans it,
    and what it logs is recorded in the world. *)
Definition whoisLookup {World : Type}
    (fetch : string -> World -> Whois.Response * World)
    (ToLower : string -> string) (ParseAny : string -> Time * error)
    (record : list Whois.LogEntry -> World -> World)
    (domain : string) (w : World)
  : Whois.Outcome ((Time * error) * World) :=
  let '(response, w1) := fetch domain w in
  match Whois.getDomainExpiration ToLower ParseAny domain response with
  | Whois.Panic => Whois.Panic
  | Whois.Return (r, log) => Whois.Return (r, record log w1)
  end.

(** *** A sample world *)

(** The world is the number of lookups made so far. *)
Definition sampleCert (hostname : string) (w : nat) : (Time * error) * nat :=
  if String.eqb hostname "a.example.com"
  then ((1000 + Z.of_nat w, None), S w)%Z
  else ((zero, Some "dial tcp: i/o timeout"%string), S w).

Definition sampleWhois (domain : string) (w : nat) : (Time * error) * nat :=
  ((2000 + Z.of_nat w, None), S w)%Z.

(** A resolver that knows three hostnames. *)
Definition sampleApex (hostname : string) : string * error :=
  if String.eqb hostname "a.example.com" then ("example.com"%string, None)
  else if String.eqb hostname "b.example.com" then ("example.com"%string, None)
  else if String.eqb hostname "www.example.org" then ("example.org"%string, None)
  else (""%string, Some "publicsuffix: cannot derive eTLD+1"%string).

Definition sampleOrder (domains : gmap string bool) : list string :=
  (map_to_list domains).*1.

Definition sampleHosts : list string :=
  [ "a.example.com"; "localhost"; "b.example.com" ]%string.

(** A registry whose every response is the one line [Whois.undatedLine],
    and the lookup of whois.go against it. *)
Definition sampleFetch (domain : string) (w : nat) : Whois.Response * nat :=
  (Whois.Body "raw" [Whois.undatedLine], S w).

Definition sampleWhoisLookup (domain : string) (w : nat)
  : Whois.Outcome ((Time * error) * nat) :=
  whoisLookup sampleFetch Whois.ToLowerSample Whois.parseYMD
              (fun _ w => w) domain w.

End Certexp.

(* ===================================================================== *)
(** ** certexp.go: the HTTP handler *)
(* ===================================================================== *)

Module Handler.

Import Certexp.

(** *** The [strings] functions the handler calls *)

(** [strings.HasPrefix(s, prefix)] *)
Definition HasPrefix (s prefix : string) : bool := String.prefix prefix s.

(** [s[n:]] for [n <= len(s)]. *)
Fixpoint dropBytes (n : nat) (s : string) : string :=
  match n, s with
  | O, _ => s
  | S n', String _ s' => dropBytes n' s'
  | S _, EmptyString => EmptyString
  end.

(** [strings.TrimPrefix(s, prefix)] *)
Definition TrimPrefix (s prefix : string) : string :=
  if HasPrefix s prefix then dropBytes (String.length prefix) s else s.

(** [strings.TrimLeft], [strings.TrimRight] and [strings.Trim] for a
    cutset of one byte, as in [strings.Trim(r.URL.Path, "/")]. *)
Fixpoint TrimLeft (s : string) (c : ascii) : string :=
  match s with
  | EmptyString => EmptyString
  | String a s' => if Ascii.eqb a c then TrimLeft s' c else s
  end.

Fixpoint TrimRight (s : string) (c : ascii) : string :=
  match s with
  | EmptyString => EmptyString
  | String a s' =>
      match TrimRight s' c with
      | EmptyString => if Ascii.eqb a c then EmptyString else String a EmptyString
      | t => String a t
      end
  end.

Definition Trim (s : string) (c : ascii) : string :=
  TrimRight (TrimLeft s c) c.

(** [strings.Split(s, sep)] for a separator of one byte, as in
    [strings.Split(..., ",")]. *)
Fixpoint Split (s : string) (sep : ascii) : list string :=
  match s with
  | EmptyString => [EmptyString]
  | String a s' =>
      if Ascii.eqb a sep then EmptyString :: Split s' sep
      else match Split s' sep with
           | piece :: pieces => String a piece :: pieces
           | [] => [String a EmptyString]
           end
  end.

(** [strings.Join(elems, sep)] *)
Fixpoint Join (elems : list string) (sep : string) : string :=
  match elems with
  | [] => EmptyString
  | [e] => e
  | e :: elems' => (e ++ sep ++ Join elems' sep)%string
  end.

(** [strings.Count(s, sep)] for one byte, and the test that a byte
    occurs. *)
Fixpoint Count (s : string) (sep : ascii) : nat :=
  match s with
  | EmptyString => 0
  | String a s' => (if Ascii.eqb a sep then 1 else 0) + Count s' sep
  end.

Definition hasByte (s : string) (c : ascii) : bool :=
  negb (Count s c =? 0)%nat.

Definition slash : ascii := "/"%char.
Definition comma : ascii := ","%char.
Definition tab : ascii := ascii_of_nat 9.

(** [strings.Split(strings.Trim(r.URL.Path, "/"), ",")] (certexp.go 261) *)
Definition hostnamesOf (path : string) : list string :=
  Split (Trim path slash) comma.

(** *** Requests and what a handler does to its [ResponseWriter] *)

(** The parts of [*http.Request] the handler reads: the URL path, the
    [Accept] header when present, [r.FormValue("ttl")], and whether
    [r.URL.Query()["quiet"]] is non-nil. *)
Record Request : Type := mkRequest {
  Path : string;
  Accept : option string;
  ttlValue : string;
  quiet : bool
}.

(** [goics.Component], as the calls made on it leave it: its type, the
    properties in the order added, the components in the order added. *)
#[local] Set Warnings "-register-all".
Inductive Component : Type :=
| mkComponent (Tipo : string) (Properties : list (string * string))
              (Elements : list Component).

Definition NewComponent : Component := mkComponent EmptyString [] [].

Definition SetType (t : string) (c : Component) : Component :=
  match c with mkComponent _ ps es => mkComponent t ps es end.

Definition AddProperty (kv : string * string) (c : Component) : Component :=
  match c with mkComponent t ps es => mkComponent t (ps ++ [kv]) es end.

Definition AddComponent (s : Component) (c : Component) : Component :=
  match c with mkComponent t ps es => mkComponent t ps (es ++ [s]) end.

Definition Elements (c : Component) : list Component :=
  match c with mkComponent _ _ es => es end.

Definition Properties (c : Component) : list (string * string) :=
  match c with mkComponent _ ps _ => ps end.

Definition Tipo (c : Component) : string :=
  match c with mkComponent t _ _ => t end.

(** The value of the first property under a key. *)
Fixpoint property (key : string) (ps : list (string * string)) : option string :=
  match ps with
  | [] => None
  | (k, v) :: ps' => if String.eqb k key then Some v else property key ps'
  end.

(** The [UID] of an event. *)
Definition uidOf (ev : Component) : option string :=
  property "UID" (Properties ev).

(** What is written to the response: text, the JSON encoding of
    [{"expirations": ...}], or the encoding of a calendar. *)
Inductive Chunk : Type :=
| Bytes (s : string)
| JSON (expirations : list Expiration)
| ICal (calendar : Component).

(** The calls a handler makes on its [http.ResponseWriter], in order. *)
Inductive Event : Type :=
| HeaderAdd (key value : string)
| HeaderSet (key value : string)
| WriteHeader (code : Z)
| Write (chunk : Chunk).

Definition isWriteHeader (ev : Event) : bool :=
  match ev with WriteHeader _ => true | _ => false end.

Definition StatusBadRequest : Z := 400.

(** [time.Duration] is an [int64] of nanoseconds; products wrap. *)
Definition wrap64 (z : Z) : Z :=
  ((z + 9223372036854775808) mod 18446744073709551616 - 9223372036854775808)%Z.

Definition minDuration : Z := (- 9223372036854775808)%Z.
Definition maxDuration : Z := 9223372036854775807%Z.

Definition Hour : Z := 3600000000000%Z.

(** [time.Hour * 24 * 30] (certexp.go 270) *)
Definition defaultTTL : Z := wrap64 (wrap64 (Hour * 24) * 30).

(** [time.Now().Add(-1 * ttl)] (certexp.go 281) *)
Definition cutoff (now : Time) (ttl : Z) : Time :=
  Add now (wrap64 (-1 * ttl)).

(** The quiet filter (certexp.go 299-306): [expirations[:0]] shares the
    array of [expirations]; [append] writes into it at index [j] while
    the [range] loop reads it at index [i], [n] iterations left. *)
Fixpoint filterLoop (soon : Time) (n i j : nat) (arr : list Expiration)
  : nat * list Expiration :=
  match n with
  | O => (j, arr)
  | S n' =>
      match arr !! i with
      | Some expiration =>
          if OK expiration soon
          then filterLoop soon n' (S i) j arr
          else filterLoop soon n' (S i) (S j) (<[j := expiration]> arr)
      | None => (j, arr)
      end
  end.

Definition quietFilter (expirations : list Expiration) (soon : Time)
  : list Expiration :=
  let '(j, arr) := filterLoop soon (length expirations) 0 0 expirations in
  take j arr.

Section Serve.

(** The lookups of [Certexp], and the library functions of the handler:
    [httputil.NegotiateContentType], [time.ParseDuration],
    [time.Time.String], [goics.FormatDateField]; and the constant
    [indexText]. *)
Context {World : Type}.
Variable getCertExpiration : string -> World -> (Time * error) * World.
Variable getDomainExpiration : string -> World -> (Time * error) * World.
Variable EffectiveTLDPlusOne : string -> string * error.
Variable rangeOrder : gmap string bool -> list string.
Variable NegotiateContentType : option string -> list string -> string -> string.
Variable ParseDuration : string -> Z * error.
Variable timeString : Time -> string.
Variable FormatDateField : string -> Time -> string * string.
Variable indexText : string.

(** [func (e Expiration) Text() string] *)
Definition Text (e : Expiration) : string :=
  let certStr :=
    match CertificateError e with
    | Some msg => msg
    | None => timeString (CertificateExpires e)
    end in
  let domainStr :=
    match DomainError e with
    | Some msg => msg
    | None => timeString (DomainExpires e)
    end in
  Join [Name e; certStr; Domain e; domainStr] (String tab EmptyString).

(** The fields [Text] joins. *)
Definition textFields (e : Expiration) : list string :=
  [ Name e;
    match CertificateError e with
    | Some msg => msg
    | None => timeString (CertificateExpires e)
    end;
    Domain e;
    match DomainError e with
    | Some msg => msg
    | None => timeString (DomainExpires e)
    end ].

Definition newline : string := String (ascii_of_nat 10) EmptyString.

(** [serveIndex] *)
Definition serveIndex : list Event :=
  [HeaderAdd "Content-Type" "text/plain"; Write (Bytes indexText)].

(** [serveExpirationsJSON] *)
Definition serveExpirationsJSON (expirations : list Expiration) : list Event :=
  [HeaderAdd "Content-Type" "application/json"; Write (JSON expirations)].

(** [serveExpirationsText]: one [Fprintln] for each report. *)
Definition serveExpirationsText (expirations : list Expiration) : list Event :=
  HeaderAdd "Content-Type" "text/plain"
  :: foldl (fun evs exp => evs ++ [Write (Bytes (Text exp ++ newline)%string)])
           [] expirations.

(** The certificate event of a report (certexp.go 211-227). *)
Definition certEvent (now : Time) (exp : Expiration) : Component :=
  let s := SetType "VEVENT" NewComponent in
  let s := AddProperty ("UID", Name exp ++ "@certificates.expire.sh")%string s in
  match CertificateError exp with
  | None =>
      let s := AddProperty (FormatDateField "DTEND" (CertificateExpires exp)) s in
      let s := AddProperty (FormatDateField "DTSTART" (CertificateExpires exp)) s in
      let s := AddProperty ("DESCRIPTION",
                            Name exp ++ " certificate expires")%string s in
      AddProperty ("SUMMARY",
                   Name exp ++ " certificate expires on "
                   ++ timeString (CertificateExpires exp))%string s
  | Some err =>
      let s := AddProperty (FormatDateField "DTEND" now) s in
      let s := AddProperty (FormatDateField "DTSTART" now) s in
      let s := AddProperty ("DESCRIPTION",
                            Name exp ++ ": error checking certificate")%string s in
      AddProperty ("SUMMARY",
                   "checking certificate for " ++ Name exp ++ ": " ++ err)%string s
  end.

(** The registration event of a report (certexp.go 229-245). *)
Definition domainEvent (now : Time) (exp : Expiration) : Component :=
  let s := SetType "VEVENT" NewComponent in
  let s := AddProperty ("UID", Name exp ++ "@domain.expire.sh")%string s in
  match DomainError exp with
  | None =>
      let s := AddProperty (FormatDateField "DTEND" (DomainExpires exp)) s in
      let s := AddProperty (FormatDateField "DTSTART" (DomainExpires exp)) s in
      let s := AddProperty ("DESCRIPTION",
                            Name exp ++ " domain expires")%string s in
      AddProperty ("SUMMARY",
                   "The domain registration for " ++ Name exp ++ " ("
                   ++ Domain exp ++ ") expires on "
                   ++ timeString (DomainExpires exp))%string s
  | Some err =>
      let s := AddProperty (FormatDateField "DTEND" now) s in
      let s := AddProperty (FormatDateField "DTSTART" now) s in
      let s := AddProperty ("DESCRIPTION",
                            Name exp ++ ": error checking domain expiration")%string s in
      AddProperty ("SUMMARY",
                   "checking domain expiration for " ++ Name exp ++ ": " ++ err)%string s
  end.

(** [func (expirations Expirations) EmitICal() goics.Componenter], with
    the [time.Now()] it reads. *)
Definition EmitICal (now : Time) (expirations : list Expiration) : Component :=
  let c := SetType "VCALENDAR" NewComponent in
  let c := AddProperty ("CALSCAL", "GREGORIAN")%string c in
  let c := AddProperty ("PRODID;X-RICAL-TZSOURCE=TZINFO", "-//tmpo.io")%string c in
  foldl (fun c exp => AddComponent (domainEvent now exp)
                        (AddComponent (certEvent now exp) c))
        c expirations.

(** The events [EmitICal] adds, report by report. *)
Definition eventsOf (now : Time) (expirations : list Expiration)
  : list Component :=
  flat_map (fun exp => [certEvent now exp; domainEvent now exp]) expirations.

(** The [UID]s of the events of a batch. *)
Definition uidsOf (now : Time) (expirations : list Expiration)
  : list (option string) :=
  uidOf <$> eventsOf now expirations.

(** [serveExpirationsIcal] *)
Definition serveExpirationsIcal (now : Time) (expirations : list Expiration)
  : list Event :=
  [ HeaderSet "Content-type" "text/calendar";
    HeaderSet "charset" "utf-8";
    HeaderSet "Content-Disposition" "inline";
    HeaderSet "filename" "calendar.ics";
    Write (ICal (EmitICal now expirations)) ].

(** The [ttl] of a request (certexp.go 270-279). *)
Definition ttlOf (r : Request) : Z * error :=
  if String.eqb (ttlValue r) "" then (defaultTTL, None)
  else ParseDuration (ttlValue r).

Definition offers : list string :=
  [ "application/json"; "text/plain"; "text/calendar" ]%string.

(** [serveExpirations]: the calls on the [ResponseWriter] and the run of
    the lookups.  [now] is the clock read at certexp.go 281, [calNow] the
    clock read in [EmitICal]. *)
Definition serveExpirations (r : Request) (w : World) (now calNow : Time)
  : list Event * Run World :=
  let hostnames := hostnamesOf (Path r) in
  let run := getExpirations getCertExpiration getDomainExpiration
               EffectiveTLDPlusOne rangeOrder hostnames w in
  let expirations := reports run in
  let contentType := NegotiateContentType (Accept r) offers "text/plain" in
  match ttlOf r with
  | (_, Some err) =>
      ([ WriteHeader StatusBadRequest;
         Write (Bytes ("Cannot parse ttl parameter: " ++ err ++ newline)%string) ],
       run)
  | (ttl, None) =>
      let soon := cutoff now ttl in
      let flags := scanFlags expirations soon in
      let expirations :=
        if quiet r then quietFilter expirations soon else expirations in
      let status :=
        if String.eqb contentType "text/calendar" then []
        else if hasError flags then [WriteHeader StatusBadGateway]
        else if hasExpirationSoon flags then [WriteHeader StatusExpectationFailed]
        else [] in
      let body :=
        if String.eqb contentType "application/json"
        then serveExpirationsJSON expirations
        else if String.eqb contentType "text/plain"
        then serveExpirationsText expirations
        else if String.eqb contentType "text/calendar"
        then serveExpirationsIcal calNow expirations
        else [] in
      (status ++ body, run)
  end.

Definition setPath (path : string) (r : Request) : Request :=
  mkRequest path (Accept r) (ttlValue r) (quiet r).

Definition setAccept (value : string) (r : Request) : Request :=
  mkRequest (Path r) (Some value) (ttlValue r) (quiet r).

(** Where [ServeHTTP] sends a request. *)
Inductive Route : Type :=
| ToIndex
| ToExpirations (r : Request).

(** The dispatch of [ServeHTTP] (certexp.go 26-40). *)
Definition route (r : Request) : Route :=
  if String.eqb (Path r) "/" then ToIndex
  else if HasPrefix (Path r) "/ical/"
  then ToExpirations (setAccept "text/calendar"
                        (setPath (TrimPrefix (Path r) "/ical") r))
  else if HasPrefix (Path r) "/json/"
  then ToExpirations (setAccept "application/json"
                        (setPath (TrimPrefix (Path r) "/json") r))
  else if HasPrefix (Path r) "/text/"
  then ToExpirations (setAccept "text/plain"
                        (setPath (TrimPrefix (Path r) "/text") r))
  else ToExpirations r.

(** [func (s *Server) ServeHTTP] *)
Definition ServeHTTP (r : Request) (w : World) (now calNow : Time)
  : list Event * option (Run World) :=
  match route r with
  | ToIndex => (serveIndex, None)
  | ToExpirations r' =>
      let '(evs, run) := serveExpirations r' w now calNow in (evs, Some run)
  end.

End Serve.

(** *** The handler's effects in one trace *)

(** What a request does to the outside, in the order it is done: a
    certificate lookup, a registration lookup, a call on the
    [ResponseWriter]. *)
Inductive Effect : Type :=
| Probe (hostname : string)
| Lookup (domain : string)
| Respond (ev : Event).

Section Traced.

Context {World : Type}.
Variable getCertExpiration : string -> World -> (Time * error) * World.
Variable getDomainExpiration : string -> World -> (Time * error) * World.
Variable EffectiveTLDPlusOne : string -> string * error.
Variable rangeOrder : gmap string bool -> list string.
Variable NegotiateContentType : option string -> list string -> string -> string.
Variable ParseDuration : string -> Z * error.
Variable timeString : Time -> string.
Variable FormatDateField : string -> Time -> string * string.

(** The lookups, writing themselves into the trace that the world
    carries along. *)
Definition tracedCert (hostname : string) (s : World * list Effect)
  : (Time * error) * (World * list Effect) :=
  let '(r, w') := getCertExpiration hostname (fst s) in
  (r, (w', snd s ++ [Probe hostname])).

Definition tracedDomain (domain : string) (s : World * list Effect)
  : (Time * error) * (World * list Effect) :=
  let '(r, w') := getDomainExpiration domain (fst s) in
  (r, (w', snd s ++ [Lookup domain])).

(** [serveExpirations] over the traced lookups: the calls on the
    [ResponseWriter] all follow the return of [getExpirations]
    (certexp.go 262) and go into the same trace. *)
Definition serveExpirationsTraced (r : Request) (s : World * list Effect)
    (now calNow : Time) : World * list Effect :=
  let '(evs, run) :=
    serveExpirations tracedCert tracedDomain EffectiveTLDPlusOne rangeOrder
      NegotiateContentType ParseDuration timeString FormatDateField
      r s now calNow in
  (fst (world run), snd (world run) ++ (Respond <$> evs)).

End Traced.

(** The reports a response shows. *)
Definition shown (r : Request) (es : list Expiration) (soon : Time)
  : list Expiration :=
  if quiet r then filter (fun e => OK e soon = false) es else es.

(** The status line a classification asks for. *)
Definition statusEvents (c : Classification) : list Event :=
  match c with
  | failed => [WriteHeader StatusBadGateway]
  | imminent => [WriteHeader StatusExpectationFailed]
  | healthy => []
  end.

(** *** Sample instances of the handler's library functions *)

(** A negotiation that takes the [Accept] header when it is one of the
    offers, and the default otherwise. *)
Definition sampleNegotiate (accept : option string) (offers : list string)
    (default : string) : string :=
  match accept with
  | Some a => if existsb (String.eqb a) offers then a else default
  | None => default
  end.

(** A duration parser that knows ["24h"] and ["1h"]. *)
Definition sampleParseDuration (s : string) : Z * error :=
  if String.eqb s "24h" then ((24 * Hour)%Z, None)
  else if String.eqb s "1h" then (Hour, None)
  else (0%Z, Some ("time: invalid duration " ++ s)%string).

Definition sampleTimeString (t : Time) : string :=
  if (t =? 0)%Z then "0001-01-01 00:00:00 +0000 UTC"%string
  else "2025-01-01 00:00:00 +0000 UTC"%string.

Definition sampleFormatDateField (key : string) (t : Time) : string * string :=
  ((key ++ ";VALUE=DATE")%string, sampleTimeString t).

Definition sampleRequest : Request :=
  mkRequest "/a.example.com,localhost,b.example.com" None "" true.

Definition sampleCalendarRequest : Request :=
  mkRequest "/a.example.com,localhost,b.example.com"
            (Some "text/calendar"%string) "24h" false.

Definition sampleBadRequest : Request :=
  mkRequest "/a.example.com" None "soon" false.

(** The handler and the lookups in the sample world. *)
Definition sampleServe (r : Request) (w : nat) (now calNow : Time)
  : list Event * Run nat :=
  serveExpirations sampleCert sampleWhois sampleApex sampleOrder
    sampleNegotiate sampleParseDuration sampleTimeString
    sampleFormatDateField r w now calNow.

Definition sampleBatch (r : Request) (w : nat) : Run nat :=
  getExpirations sampleCert sampleWhois sampleApex sampleOrder
                 (hostnamesOf (Path r)) w.

End Handler.

(* ===================================================================== *)
(** ** Sample registry responses and reports *)
(* ===================================================================== *)

Module Samples.

Import Whois Certexp Handler.

(** Two lines of a registry response in ASCII. *)
Definition asciiLines : list string :=
  [ "Domain Name: EXAMPLE.COM"; "Registry Expiry Date: 2025-01-01" ]%string.

(** Lines with dates and without a keyword. *)
Definition plainLines : list string :=
  [ "Domain Name: EXAMPLE.COM"; "Updated Date: 2024-06-01" ]%string.

(** A keyword line that grows by one byte when lower-cased. *)
Definition grownLine : string := ("expiry " ++ AStroke)%string.

(** A report with a certificate date and a registration error. *)
Definition sampleReport : Expiration :=
  mkExpiration "a.example.com" (Date 2025 1 1) None "example.com" zero
               (Some "cannot determine expiration date from whois record"%string).

End Samples.

(* ===================================================================== *)
(** * Properties *)
(* ===================================================================== *)

Import Cert Whois Certexp.
Import Handler.
Import Samples.

(** ** Instants *)

Section TimeFacts.

Lemma Before_lt t u : Before t u = true <-> (t < u)%Z.
Proof. unfold Before. apply Z.ltb_lt. Qed.

Lemma Before_ge t u : Before t u = false <-> (u <= t)%Z.
Proof. unfold Before. apply Z.ltb_ge. Qed.

Lemma Before_irrefl t : Before t t = false.
Proof. apply Before_ge. lia. Qed.

Lemma Before_pred t : Before (Add t (- Nanosecond)) t = true.
Proof. apply Before_lt. unfold Add, Nanosecond. lia. Qed.

Lemma IsZero_eq t : IsZero t = true <-> t = zero.
Proof. unfold IsZero, zero. apply Z.eqb_eq. Qed.

Lemma IsZero_neq t : IsZero t = false <-> t <> zero.
Proof. unfold IsZero, zero. apply Z.eqb_neq. Qed.

End TimeFacts.

(** ** The certificate chain *)

Section CertFacts.

Lemma minStep_cases m c :
  (m = zero \/ (NotAfter c < m)%Z) /\ minStep m c = NotAfter c
  \/ (m <> zero /\ (m <= NotAfter c)%Z) /\ minStep m c = m.
Proof.
  unfold minStep.
  destruct (IsZero m) eqn:Hz; destruct (Before (NotAfter c) m) eqn:Hb; simpl.
  - left. apply IsZero_eq in Hz. auto.
  - left. apply IsZero_eq in Hz. auto.
  - left. apply Before_lt in Hb. auto.
  - right. apply IsZero_neq in Hz. apply Before_ge in Hb. auto.
Qed.

(** From a non-zero running minimum, over certificates none of which
    expires at the zero instant, the loop computes a true minimum. *)
Lemma foldl_minStep_nonzero certs : forall m,
  m <> zero ->
  (forall c, c ∈ certs -> NotAfter c <> zero) ->
  let r := foldl minStep m certs in
  r <> zero /\ (r <= m)%Z /\
  (forall c, c ∈ certs -> (r <= NotAfter c)%Z) /\
  (r = m \/ exists c, c ∈ certs /\ NotAfter c = r).
Proof.
  induction certs as [|c certs IH]; intros m Hm Hnz; simpl.
  - repeat split; [assumption | lia | | left; reflexivity].
    intros c Hc. inversion Hc.
  - assert (Hc : NotAfter c <> zero) by (apply Hnz; left).
    assert (Hrest : forall c', c' ∈ certs -> NotAfter c' <> zero)
      by (intros c' Hc'; apply Hnz; right; exact Hc').
    destruct (minStep_cases m c) as [[Hwhy Heq] | [[_ Hle] Heq]];
      rewrite Heq.
    + destruct Hwhy as [Hwhy | Hlt]; [contradiction |].
      destruct (IH (NotAfter c) Hc Hrest) as (Hr0 & Hrle & Hall & Hmem).
      repeat split; [assumption | lia | |].
      * intros c' Hc'. apply elem_of_cons in Hc' as [-> | Hc'];
          [assumption | apply Hall; assumption].
      * right. destruct Hmem as [Hmem | (c' & Hc' & Hc'eq)].
        -- exists c. split; [left | symmetry; assumption].
        -- exists c'. split; [right; assumption | assumption].
    + destruct (IH m Hm Hrest) as (Hr0 & Hrle & Hall & Hmem).
      repeat split; [assumption | assumption | |].
      * intros c' Hc'. apply elem_of_cons in Hc' as [-> | Hc'];
          [lia | apply Hall; assumption].
      * destruct Hmem as [Hmem | (c' & Hc' & Hc'eq)];
          [left; assumption |].
        right. exists c'. split; [right; assumption | assumption].
Qed.

(** The minimum is returned for every non-empty chain in which no
    certificate expires exactly at the zero instant. *)
Lemma getCertExpiration_min certs :
  certs <> [] ->
  (forall c, c ∈ certs -> NotAfter c <> zero) ->
  exists m, getCertExpiration (ConnectionState certs) = (m, None)
            /\ is_min_NotAfter m certs.
Proof.
  intros Hne Hnz. destruct certs as [|c certs]; [congruence |].
  exists (minExpiresOf (c :: certs)). split; [reflexivity |].
  unfold minExpiresOf. simpl.
  assert (Hc : NotAfter c <> zero) by (apply Hnz; left).
  assert (Hrest : forall c', c' ∈ certs -> NotAfter c' <> zero)
    by (intros c' Hc'; apply Hnz; right; exact Hc').
  replace (minStep zero c) with (NotAfter c) by reflexivity.
  destruct (foldl_minStep_nonzero certs (NotAfter c) Hc Hrest)
    as (_ & Hle & Hall & Hmem).
  split.
  - destruct Hmem as [Hmem | (c' & Hc' & Hc'eq)].
    + exists c. split; [left | symmetry; assumption].
    + exists c'. split; [right; assumption | assumption].
  - intros c' Hc'. apply elem_of_cons in Hc' as [-> | Hc'];
      [assumption | apply Hall; assumption].
Qed.

(** An empty chain is an error, with the zero timestamp. *)
Lemma getCertExpiration_empty :
  exists err, getCertExpiration (ConnectionState []) = (zero, Some err).
Proof. eexists. reflexivity. Qed.

(** A non-empty chain never yields an error. *)
Lemma getCertExpiration_nonempty certs :
  certs <> [] -> snd (getCertExpiration (ConnectionState certs)) = None.
Proof. destruct certs; [congruence | reflexivity]. Qed.

(** C2. For a non-empty chain the claim promises the minimum
    [NotAfter] of all certificates.  On the chain whose second
    certificate expires exactly at the zero instant, the loop takes the
    zero value it has just stored for "nothing seen yet" and overwrites
    it with the third certificate: [getCertExpiration] returns the
    latest of the three dates, with no error, although the minimum of
    the chain is the zero instant. *)
Theorem getCertExpiration_zero_NotAfter :
  let leaf := mkCertificate (Date 2026 3 1) in
  let stray := mkCertificate zero in
  let intermediate := mkCertificate (Date 2030 1 1) in
  let chain := [leaf; stray; intermediate] in
  getCertExpiration (ConnectionState chain) = (Date 2030 1 1, None)
  /\ is_min_NotAfter zero chain
  /\ ~ is_min_NotAfter (Date 2030 1 1) chain.
Proof.
  cbv zeta. split; [vm_compute; reflexivity |]. split.
  - split.
    + exists (mkCertificate zero). split; [| reflexivity].
      right. left.
    + intros c Hc.
      repeat (apply elem_of_cons in Hc as [-> | Hc];
              [vm_compute; discriminate |]).
      inversion Hc.
  - intros [_ Hall].
    specialize (Hall (mkCertificate (Date 2026 3 1))).
    assert (Hle : (Date 2030 1 1 <= Date 2026 3 1)%Z) by (apply Hall; left).
    vm_compute in Hle. apply Hle. reflexivity.
Qed.

End CertFacts.

(** ** Evaluation against the cutoff *)

Section ThresholdFacts.

(** C5. A report is not healthy exactly when its certificate lookup
    failed, or its certificate expires strictly before the cutoff, or
    its registration lookup failed, or its registration expires
    strictly before the cutoff.  On the boundary: with both dates equal
    to the cutoff [T] the report is healthy; with either date one
    nanosecond before [T] it is not. *)
Theorem OK_not_healthy_iff :
  (forall e soon,
      OK e soon = false <->
      CertificateError e <> None \/ (CertificateExpires e < soon)%Z \/
      DomainError e <> None \/ (DomainExpires e < soon)%Z)
  /\ (forall name domain T,
         OK (mkExpiration name T None domain T None) T = true
         /\ OK (mkExpiration name (Add T (- Nanosecond)) None domain T None) T
            = false
         /\ OK (mkExpiration name T None domain (Add T (- Nanosecond)) None) T
            = false).
Proof.
  split.
  - intros [name ce cerr domain de derr] soon. unfold OK. simpl.
    destruct cerr as [msg|].
    { split; [intros _; left; discriminate | reflexivity]. }
    destruct (Before ce soon) eqn:Hc.
    { apply Before_lt in Hc. split; [intros _; right; left; exact Hc | reflexivity]. }
    apply Before_ge in Hc.
    destruct derr as [msg|].
    { split; [intros _; right; right; left; discriminate | reflexivity]. }
    destruct (Before de soon) eqn:Hd.
    { apply Before_lt in Hd. split; [intros _; do 3 right; exact Hd | reflexivity]. }
    apply Before_ge in Hd.
    split; [discriminate |].
    intros [H | [H | [H | H]]]; try congruence; lia.
  - intros name domain T. unfold OK. simpl.
    rewrite Before_irrefl, Before_pred. repeat split.
Qed.

Lemma flagStep_hasError soon f e :
  hasError (flagStep soon f e) = hasError f || hardErrorb e.
Proof.
  unfold flagStep, hardErrorb.
  destruct (CertificateError e), (DomainError e);
    repeat (destruct (Before _ soon)); simpl;
    destruct (hasError f); reflexivity.
Qed.

Lemma flagStep_hasExpirationSoon soon f e :
  hasExpirationSoon (flagStep soon f e) = hasExpirationSoon f || soonb soon e.
Proof.
  unfold flagStep, soonb.
  destruct (CertificateError e), (DomainError e);
    repeat (destruct (Before _ soon)); simpl;
    destruct (hasExpirationSoon f); reflexivity.
Qed.

Lemma foldl_flagStep soon es : forall f,
  hasError (foldl (flagStep soon) f es) = hasError f || existsb hardErrorb es
  /\ hasExpirationSoon (foldl (flagStep soon) f es)
     = hasExpirationSoon f || existsb (soonb soon) es.
Proof.
  induction es as [|e es IH]; intros f; simpl.
  - rewrite !orb_false_r. split; reflexivity.
  - destruct (IH (flagStep soon f e)) as [-> ->].
    rewrite flagStep_hasError, flagStep_hasExpirationSoon, !orb_assoc.
    split; reflexivity.
Qed.

Lemma hardErrorb_spec e : hardErrorb e = true <-> hardError e.
Proof.
  unfold hardErrorb, hardError.
  destruct (CertificateError e), (DomainError e); split;
    try discriminate; try reflexivity; intros H.
  - left. discriminate.
  - left. discriminate.
  - right. discriminate.
  - destruct H; congruence.
Qed.

Lemma soonb_expiresBefore soon e :
  soonb soon e = true -> expiresBefore soon e.
Proof.
  unfold soonb, expiresBefore. intros H.
  apply orb_true_iff in H as [H | H].
  - destruct (CertificateError e); [discriminate |].
    left. apply Before_lt. exact H.
  - destruct (DomainError e); [discriminate |].
    right. apply Before_lt. exact H.
Qed.

Lemma expiresBefore_soonb soon e :
  ~ hardError e -> expiresBefore soon e -> soonb soon e = true.
Proof.
  unfold soonb, expiresBefore, hardError. intros Hn H.
  destruct (CertificateError e); [exfalso; apply Hn; left; discriminate |].
  destruct (DomainError e); [exfalso; apply Hn; right; discriminate |].
  apply orb_true_iff. destruct H as [H | H]; [left | right];
    apply Before_lt; exact H.
Qed.

Lemma scanFlags_hasError es soon :
  hasError (scanFlags es soon) = true <-> exists e, e ∈ es /\ hardError e.
Proof.
  unfold scanFlags.
  destruct (foldl_flagStep soon es (mkFlags false false)) as [-> _]. simpl.
  rewrite existsb_exists. split.
  - intros (e & Hin & He). exists e. split.
    + apply list_elem_of_In. exact Hin.
    + apply hardErrorb_spec. exact He.
  - intros (e & Hin & He). exists e. split.
    + apply list_elem_of_In. exact Hin.
    + apply hardErrorb_spec. exact He.
Qed.

Lemma scanFlags_hasExpirationSoon es soon :
  hasExpirationSoon (scanFlags es soon) = true
  <-> exists e, e ∈ es /\ soonb soon e = true.
Proof.
  unfold scanFlags.
  destruct (foldl_flagStep soon es (mkFlags false false)) as [_ ->]. simpl.
  rewrite existsb_exists. split.
  - intros (e & Hin & He). exists e. split;
      [apply list_elem_of_In; exact Hin | exact He].
  - intros (e & Hin & He). exists e. split;
      [apply list_elem_of_In; exact Hin | exact He].
Qed.

(** C6. The batch is [failed] exactly when some report carries a hard
    error; it is [imminent] exactly when no report carries a hard error
    and some report has a date strictly before the cutoff; it is
    [healthy] exactly when neither is the case.  So an error anywhere
    takes the batch to [failed] whatever the dates are. *)
Theorem classify_batch es soon :
  (classify es soon = failed <-> exists e, e ∈ es /\ hardError e)
  /\ (classify es soon = imminent <->
      ~ (exists e, e ∈ es /\ hardError e)
      /\ exists e, e ∈ es /\ expiresBefore soon e)
  /\ (classify es soon = healthy <->
      ~ (exists e, e ∈ es /\ hardError e)
      /\ ~ exists e, e ∈ es /\ expiresBefore soon e).
Proof.
  pose proof (scanFlags_hasError es soon) as HE.
  pose proof (scanFlags_hasExpirationSoon es soon) as HS.
  unfold classify, classifyFlags.
  destruct (hasError (scanFlags es soon)) eqn:He.
  { assert (Hex : exists e, e ∈ es /\ hardError e) by (apply HE; reflexivity).
    repeat split; try discriminate; try (intros _; exact Hex);
      intros [Hn _]; contradiction. }
  assert (Hno : ~ exists e, e ∈ es /\ hardError e).
  { intros Hex. apply HE in Hex. discriminate. }
  destruct (hasExpirationSoon (scanFlags es soon)) eqn:Hs.
  - assert (Hex : exists e, e ∈ es /\ expiresBefore soon e).
    { destruct (proj1 HS eq_refl) as (e & Hin & Hb).
      exists e. split; [exact Hin | apply soonb_expiresBefore; exact Hb]. }
    repeat split; try discriminate; try assumption.
    + intros Hx. contradiction.
    + intros [_ Hn]. contradiction.
  - assert (Hnb : ~ exists e, e ∈ es /\ expiresBefore soon e).
    { intros (e & Hin & Hb).
      assert (Hc : false = true); [| discriminate].
      apply HS. exists e. split; [exact Hin |].
      apply expiresBefore_soonb; [| exact Hb].
      intros Hh. apply Hno. exists e. split; assumption. }
    repeat split; try discriminate; try assumption.
    + intros Hx. contradiction.
    + intros [_ Hx]. contradiction.
Qed.

End ThresholdFacts.

(** ** Scanning a registry response *)

Section WhoisFacts.

Variable ToLower : string -> string.
Variable ParseAny : string -> Time * error.

Lemma sliceFrom_in_bounds s : forall i,
  i <= String.length s -> is_Some (sliceFrom s i).
Proof.
  induction s as [|c s IH]; intros [|i] Hi; simpl in *; eauto; try lia.
  apply IH. lia.
Qed.

Lemma sliceFrom_out_of_bounds s : forall i,
  String.length s < i -> sliceFrom s i = None.
Proof.
  induction s as [|c s IH]; intros [|i] Hi; simpl in *;
    try reflexivity; try lia.
  apply IH. lia.
Qed.

(** While the offsets stay within [0 .. len(text)], the offset loop is
    the search for the first offset that parses. *)
Lemma scanOffsets_firstParse text n : forall i,
  i + n <= S (String.length text) ->
  scanOffsets ParseAny text i n = Return (firstParse ParseAny text (seq i n)).
Proof.
  induction n as [|n IH]; intros i Hi; simpl; [reflexivity |].
  unfold parseAt.
  destruct (sliceFrom_in_bounds text i) as [str Hstr]; [lia |].
  rewrite Hstr. destruct (ParseAny str) as [d [msg|]]; [| reflexivity].
  apply IH. lia.
Qed.

(** When nothing parses and the loop bound lies more than one past
    [len(text)], the loop reaches a slice that is out of range. *)
Lemma scanOffsets_panics text n : forall i,
  (forall j, parseAt ParseAny text j = None) ->
  0 < n -> S (String.length text) < i + n ->
  scanOffsets ParseAny text i n = Panic.
Proof.
  induction n as [|n IH]; intros i Hnone Hn Hi; [lia |]. simpl.
  destruct (sliceFrom text i) as [str|] eqn:Hstr; [| reflexivity].
  assert (Hle : i <= String.length text).
  { destruct (le_lt_dec i (String.length text)) as [Hle | Hlt]; [exact Hle |].
    rewrite sliceFrom_out_of_bounds in Hstr by exact Hlt. discriminate. }
  specialize (Hnone i) as Hp. unfold parseAt in Hp. rewrite Hstr in Hp.
  destruct (ParseAny str) as [d [msg|]]; [| discriminate].
  apply IH; [exact Hnone | lia | lia].
Qed.

Lemma scanKeywords_spec text line keywords :
  String.length line <= S (String.length text) ->
  scanKeywords ParseAny text line keywords
  = Return (if existsb (Contains line) keywords
            then firstParse ParseAny text (seq 0 (String.length line))
            else None).
Proof.
  intros Hlen. induction keywords as [|keyword keywords IH]; simpl;
    [reflexivity |].
  destruct (Contains line keyword); simpl; [| exact IH].
  rewrite scanOffsets_firstParse by lia.
  destruct (firstParse ParseAny text (seq 0 (String.length line))) as [d|];
    [reflexivity |].
  rewrite IH. destruct (existsb (Contains line) keywords); reflexivity.
Qed.

Lemma scanKeywords_panics text line keywords keyword :
  keyword ∈ keywords -> Contains line keyword = true ->
  (forall j, parseAt ParseAny text j = None) ->
  S (String.length text) < String.length line ->
  scanKeywords ParseAny text line keywords = Panic.
Proof.
  intros Hin Hc Hnone Hlen.
  induction keywords as [|k keywords IH]; [inversion Hin |]. simpl.
  destruct (Contains line k) eqn:Hk.
  - rewrite scanOffsets_panics; [reflexivity | exact Hnone | lia | lia].
  - apply IH. apply elem_of_cons in Hin as [-> | Hin]; [congruence | exact Hin].
Qed.

(** A keyword line without a date whose lower-cased copy is at least
    two bytes longer makes the whole scan panic. *)
Lemma scanLines_panics text lines keyword :
  keyword ∈ expirationKeywords -> Contains (ToLower text) keyword = true ->
  (forall j, parseAt ParseAny text j = None) ->
  S (String.length text) < String.length (ToLower text) ->
  scanLines ToLower ParseAny (text :: lines) = Panic.
Proof.
  intros Hin Hc Hnone Hlen. cbn [scanLines].
  rewrite (scanKeywords_panics _ _ _ keyword); auto.
Qed.

(** On a body whose lines keep their byte length when lower-cased (as
    every ASCII line does), the scan returns what the specification
    describes: the first date, in line order, over the offsets of the
    keyword lines. *)
Lemma scanLines_spec lines :
  (forall text, text ∈ lines ->
                String.length (ToLower text) = String.length text) ->
  scanLines ToLower ParseAny lines = Return (specScan ToLower ParseAny lines).
Proof.
  induction lines as [|text lines IH]; intros Hlen; cbn [scanLines specScan];
    [reflexivity |].
  assert (Ht : String.length (ToLower text) = String.length text)
    by (apply Hlen; left).
  rewrite scanKeywords_spec by lia.
  unfold keywordLine, offsetsOf. rewrite Ht.
  destruct (existsb (Contains (ToLower text)) expirationKeywords).
  - destruct (firstParse ParseAny text (seq 0 (String.length text)));
      [reflexivity |].
    apply IH. intros t Hin. apply Hlen. right. exact Hin.
  - apply IH. intros t Hin. apply Hlen. right. exact Hin.
Qed.

Lemma firstParse_none text offsets :
  (forall i, parseAt ParseAny text i = None) ->
  firstParse ParseAny text offsets = None.
Proof.
  intros Hnone. induction offsets as [|i offsets IH]; simpl; [reflexivity |].
  rewrite Hnone. exact IH.
Qed.

Lemma specScan_noDate lines :
  noDate ToLower ParseAny lines -> specScan ToLower ParseAny lines = None.
Proof.
  induction lines as [|text lines IH]; intros Hno; cbn [specScan];
    [reflexivity |].
  assert (Hrest : noDate ToLower ParseAny lines).
  { intros t i Hin Hk. apply Hno; [right; exact Hin | exact Hk]. }
  destruct (keywordLine ToLower text) eqn:Hk; [| apply IH; exact Hrest].
  rewrite firstParse_none; [apply IH; exact Hrest |].
  intros i. apply Hno; [left | exact Hk].
Qed.

(** On a length-preserving body without a date on any keyword line,
    the call returns the zero timestamp with the extraction error and
    logs the raw text once. *)
Lemma getDomainExpiration_noDate domain text lines :
  (forall t, t ∈ lines -> String.length (ToLower t) = String.length t) ->
  noDate ToLower ParseAny lines ->
  getDomainExpiration ToLower ParseAny domain (Body text lines)
  = Return ((zero, Some errCannotDetermine), [CannotDetermine domain text]).
Proof.
  intros Hlen Hno. unfold getDomainExpiration.
  rewrite scanLines_spec by exact Hlen.
  rewrite specScan_noDate by exact Hno. reflexivity.
Qed.

Lemma firstParse_none_on text offsets :
  (forall i, i ∈ offsets -> parseAt ParseAny text i = None) ->
  firstParse ParseAny text offsets = None.
Proof.
  induction offsets as [|i offsets IH]; intros Hnone; simpl; [reflexivity |].
  rewrite Hnone by left. apply IH. intros j Hj. apply Hnone. right. exact Hj.
Qed.

Lemma firstParse_app text xs ys :
  firstParse ParseAny text (xs ++ ys)
  = match firstParse ParseAny text xs with
    | Some d => Some d
    | None => firstParse ParseAny text ys
    end.
Proof.
  induction xs as [|i xs IH]; simpl; [reflexivity |].
  destruct (parseAt ParseAny text i); [reflexivity | exact IH].
Qed.

End WhoisFacts.

Section WhoisSamples.

Lemma undatedLine_parseYMD j : parseAt parseYMD undatedLine j = None.
Proof. do 12 (destruct j as [|j]; [reflexivity |]). reflexivity. Qed.

Lemma dottedLine_parseYMD i : i < 28 -> parseAt parseYMD dottedLine i = None.
Proof.
  intros Hi. do 28 (destruct i as [|i]; [reflexivity |]). lia.
Qed.

Lemma noDate_undatedLine : noDate ToLowerSample parseYMD [undatedLine].
Proof.
  intros text i Hin _. apply list_elem_of_singleton in Hin as ->.
  apply undatedLine_parseYMD.
Qed.

(** The specification's example: a mixed-case keyword and an ISO date. *)
Example registry_expiry_line :
  getDomainExpiration ToLowerSample parseYMD "example.com"
    (Body "Registry Expiry Date: 2025-01-01"
          ["Registry Expiry Date: 2025-01-01"%string])
  = Return (parseYMD "2025-01-01", []).
Proof. vm_compute. reflexivity. Qed.

End WhoisSamples.

(** C1. The claim has every offset of the original line tried and the
    first date, in line order, returned.  The offset loop is bounded by
    the length of the lower-cased copy instead: on [dottedLine], 38
    bytes long and 28 once lower-cased, the offsets 28 to 37 are never
    tried.  With a parser that reads the date at offset 28 and nothing
    before it, the specification's scan finds that date, while the code
    finds none and returns the extraction error. *)
Theorem scanLines_misses_date (ParseAny : string -> Time * error) d domain text :
  ParseAny "2025-01-01"%string = (d, None) ->
  (forall i, i < 28 -> parseAt ParseAny dottedLine i = None) ->
  specScan ToLowerSample ParseAny [dottedLine] = Some d
  /\ scanLines ToLowerSample ParseAny [dottedLine] = Return None
  /\ getDomainExpiration ToLowerSample ParseAny domain (Body text [dottedLine])
     = Return ((zero, Some errCannotDetermine), [CannotDetermine domain text]).
Proof.
  intros Hd Hnone.
  assert (Hlow : String.length (ToLowerSample dottedLine) = 28)
    by (vm_compute; reflexivity).
  assert (Hkey : existsb (Contains (ToLowerSample dottedLine)) expirationKeywords
                 = true) by (vm_compute; reflexivity).
  assert (Hhead : firstParse ParseAny dottedLine (seq 0 28) = None).
  { apply firstParse_none_on. intros i Hi. apply Hnone.
    apply elem_of_seq in Hi. lia. }
  assert (Hat : parseAt ParseAny dottedLine 28 = Some d).
  { unfold parseAt.
    replace (sliceFrom dottedLine 28) with (Some "2025-01-01"%string)
      by (vm_compute; reflexivity).
    rewrite Hd. reflexivity. }
  assert (Hscan : scanLines ToLowerSample ParseAny [dottedLine] = Return None).
  { cbn [scanLines]. rewrite scanKeywords_spec.
    - rewrite Hkey, Hlow, Hhead. reflexivity.
    - rewrite Hlow. vm_compute. lia. }
  split; [| split; [exact Hscan |]].
  - cbn [specScan]. unfold keywordLine, offsetsOf. rewrite Hkey.
    replace (String.length dottedLine) with (28 + 10) by (vm_compute; reflexivity).
    rewrite seq_app, firstParse_app, Hhead. simpl. rewrite Hat. reflexivity.
  - unfold getDomainExpiration. rewrite Hscan. reflexivity.
Qed.

Lemma scanLines_misses_date_witness :
  parseYMD "2025-01-01"%string = (63871286400000000000%Z, None)
  /\ (forall i, i < 28 -> parseAt parseYMD dottedLine i = None)
  /\ specScan ToLowerSample parseYMD [dottedLine] = Some 63871286400000000000%Z
  /\ scanLines ToLowerSample parseYMD [dottedLine] = Return None
  /\ getDomainExpiration ToLowerSample parseYMD "example.com"
       (Body "raw" [dottedLine])
     = Return ((zero, Some errCannotDetermine),
               [CannotDetermine "example.com" "raw"]).
Proof.
  split; [vm_compute; reflexivity |].
  split; [exact dottedLine_parseYMD |].
  apply (scanLines_misses_date parseYMD 63871286400000000000%Z
           "example.com" "raw").
  - vm_compute. reflexivity.
  - exact dottedLine_parseYMD.
Defined.

(** C7. The claim excludes a panic when no keyword line yields a date.
    [undatedLine] is such a line; its lower-cased copy is two bytes
    longer than the line itself, so the offset loop slices the original
    line beyond its end and [getDomainExpiration] panics instead of
    returning the extraction error. *)
Theorem getDomainExpiration_panics_without_date
    (ParseAny : string -> Time * error) domain text :
  noDate ToLowerSample ParseAny [undatedLine] ->
  getDomainExpiration ToLowerSample ParseAny domain (Body text [undatedLine])
  = Panic.
Proof.
  intros Hno. unfold getDomainExpiration.
  rewrite (scanLines_panics _ _ _ _ "expiry"%string); [reflexivity | | | |].
  - left.
  - vm_compute. reflexivity.
  - intros j. apply Hno; [left | vm_compute; reflexivity].
  - vm_compute. lia.
Qed.

Lemma getDomainExpiration_panics_without_date_witness :
  noDate ToLowerSample parseYMD [undatedLine]
  /\ getDomainExpiration ToLowerSample parseYMD "example.com"
       (Body "raw" [undatedLine]) = Panic.
Proof.
  split; [exact noDate_undatedLine |].
  apply (getDomainExpiration_panics_without_date parseYMD "example.com" "raw").
  exact noDate_undatedLine.
Defined.

(** C9. The claim has every slice [s.Text()[i:]] with [i] below the
    length of the lower-cased line in bounds.  Whenever a keyword line
    without a date grows by two bytes or more under lower-casing, some
    such index lies beyond the end of the original line, and the scan
    reaches it and panics. *)
Theorem offset_scan_out_of_range
    (ToLower : string -> string) (ParseAny : string -> Time * error)
    text keyword lines :
  keyword ∈ expirationKeywords ->
  Contains (ToLower text) keyword = true ->
  (forall j, parseAt ParseAny text j = None) ->
  S (String.length text) < String.length (ToLower text) ->
  (exists i, i < String.length (ToLower text) /\ sliceFrom text i = None)
  /\ scanLines ToLower ParseAny (text :: lines) = Panic.
Proof.
  intros Hin Hc Hnone Hlen. split.
  - exists (S (String.length text)). split; [exact Hlen |].
    apply sliceFrom_out_of_bounds. lia.
  - apply (scanLines_panics _ _ _ _ keyword); assumption.
Qed.

Lemma offset_scan_out_of_range_witness :
  "expiry"%string ∈ expirationKeywords
  /\ Contains (ToLowerSample undatedLine) "expiry" = true
  /\ (forall j, parseAt parseYMD undatedLine j = None)
  /\ S (String.length undatedLine) < String.length (ToLowerSample undatedLine)
  /\ (exists i, i < String.length (ToLowerSample undatedLine)
                /\ sliceFrom undatedLine i = None)
  /\ scanLines ToLowerSample parseYMD [undatedLine] = Panic.
Proof.
  assert (H1 : "expiry"%string ∈ expirationKeywords) by left.
  assert (H2 : Contains (ToLowerSample undatedLine) "expiry" = true)
    by (vm_compute; reflexivity).
  assert (H4 : S (String.length undatedLine)
               < String.length (ToLowerSample undatedLine))
    by (vm_compute; lia).
  split; [exact H1 |]. split; [exact H2 |].
  split; [exact undatedLine_parseYMD |]. split; [exact H4 |].
  exact (offset_scan_out_of_range ToLowerSample parseYMD undatedLine
           "expiry"%string [] H1 H2 undatedLine_parseYMD H4).
Defined.

(** ** Aggregation over a batch *)

Section AggregateFacts.

Context {World : Type}.
Variable getCertExpiration : string -> World -> (Time * error) * World.
Variable getDomainExpiration : string -> World -> (Time * error) * World.
Variable EffectiveTLDPlusOne : string -> string * error.
Variable rangeOrder : gmap string bool -> list string.

Local Abbreviation apexOf := (Certexp.apexOf EffectiveTLDPlusOne).
Local Abbreviation apexSet := (Certexp.apexSet EffectiveTLDPlusOne).
Local Abbreviation probeAll := (Certexp.probeAll getCertExpiration).
Local Abbreviation lookupAll := (Certexp.lookupAll getDomainExpiration).
Local Abbreviation withApex := (Certexp.withApex EffectiveTLDPlusOne).
Local Abbreviation addApex := (Certexp.addApex EffectiveTLDPlusOne).
Local Abbreviation draft := (Certexp.draft EffectiveTLDPlusOne).
Local Abbreviation getExpirations :=
  (Certexp.getExpirations getCertExpiration getDomainExpiration
                  EffectiveTLDPlusOne rangeOrder).

Lemma alter_at_boundary (f : Expiration -> Expiration) done e todo :
  alter f (length done) (done ++ e :: todo) = (done ++ [f e]) ++ todo.
Proof.
  replace (length done) with (length done + 0) by lia.
  rewrite alter_app_r. simpl. rewrite <- app_assoc. reflexivity.
Qed.

Lemma boundary_length (done : list Expiration) e :
  length (done ++ [e]) = S (length done).
Proof. rewrite length_app. simpl. lia. Qed.

(** *** The three loops over the hostnames *)

Lemma nameLoop_from hostnames : forall done todo,
  length todo = length hostnames ->
  rangeFrom (fun i hostname rv => alter (setName hostname) i rv)
            (length done) hostnames (done ++ todo)
  = done ++ zip_with setName hostnames todo.
Proof.
  induction hostnames as [|h hs IH]; intros done [|e todo] Hlen;
    simpl in *; try discriminate; [reflexivity |].
  rewrite alter_at_boundary, <- (boundary_length done (setName h e)).
  rewrite IH by lia. rewrite <- app_assoc. reflexivity.
Qed.

Lemma certLoop_from hostnames : forall done todo w,
  length todo = length hostnames ->
  rangeFrom (fun i hostname '(rv, w) =>
               let '(r, w') := getCertExpiration hostname w in
               (alter (setCertificate r) i rv, w'))
            (length done) hostnames (done ++ todo, w)
  = (done ++ zip_with setCertificate (probeAll hostnames w).1 todo,
     (probeAll hostnames w).2).
Proof.
  induction hostnames as [|h hs IH]; intros done [|e todo] w Hlen;
    simpl in *; try discriminate; [reflexivity |].
  destruct (getCertExpiration h w) as [r w1].
  rewrite alter_at_boundary, <- (boundary_length done (setCertificate r e)).
  rewrite IH by lia.
  destruct (probeAll hs w1) as [rs w2]. simpl.
  rewrite <- app_assoc. reflexivity.
Qed.

Lemma domainLoop_from hostnames : forall done todo domains,
  length todo = length hostnames ->
  rangeFrom (fun i hostname '(domains, rv) =>
               match EffectiveTLDPlusOne hostname with
               | (_, Some _) => (domains, rv)
               | (domain, None) =>
                   (<[domain := true]> domains,
                    alter (setDomain domain) i rv)
               end)
            (length done) hostnames (domains, done ++ todo)
  = (foldl addApex domains hostnames,
     done ++ zip_with withApex hostnames todo).
Proof.
  induction hostnames as [|h hs IH]; intros done [|e todo] domains Hlen;
    simpl in *; try discriminate; [reflexivity |].
  unfold Certexp.addApex at 2, Certexp.withApex at 1, Certexp.apexOf.
  destruct (EffectiveTLDPlusOne h) as [domain [msg|]].
  - change (done ++ e :: todo) with (done ++ [e] ++ todo).
    rewrite app_assoc, <- (boundary_length done e), IH by lia.
    rewrite <- app_assoc. reflexivity.
  - rewrite alter_at_boundary, <- (boundary_length done (setDomain domain e)).
    rewrite IH by lia. rewrite <- app_assoc. reflexivity.
Qed.

(** *** Handing a registration result to the reports *)

Lemma fanOut_from domain r todo : forall done,
  foldl (fun rv i =>
           match rv !! i with
           | Some e =>
               if String.eqb (Domain e) domain
               then alter (setRegistration r) i rv
               else rv
           | None => rv
           end)
        (done ++ todo) (seq (length done) (length todo))
  = done ++ ((fun e => deliver e (domain, r)) <$> todo).
Proof.
  induction todo as [|e todo IH]; intros done; simpl; [reflexivity |].
  rewrite list_lookup_middle by reflexivity.
  unfold deliver at 1. simpl.
  destruct (String.eqb (Domain e) domain).
  - rewrite alter_at_boundary, <- (boundary_length done (setRegistration r e)).
    rewrite IH, <- app_assoc. reflexivity.
  - change (done ++ e :: todo) with (done ++ [e] ++ todo).
    rewrite app_assoc, <- (boundary_length done e), IH.
    rewrite <- app_assoc. reflexivity.
Qed.

Lemma fanOut_fmap domain r rv :
  fanOut domain r rv = (fun e => deliver e (domain, r)) <$> rv.
Proof. apply (fanOut_from domain r rv []). Qed.

Lemma lookupLoop_eq keys : forall rv calls w,
  lookupLoop getDomainExpiration keys (mkRun rv calls w)
  = mkRun (foldl (fun rv dr => (fun e => deliver e dr) <$> rv)
                 rv (lookupAll keys w).1)
          (calls ++ keys) (lookupAll keys w).2.
Proof.
  induction keys as [|domain keys IH]; intros rv calls w; simpl.
  - rewrite app_nil_r. reflexivity.
  - destruct (getDomainExpiration domain w) as [r w1] eqn:Hr.
    rewrite IH.
    destruct (lookupAll keys w1) as [rs w2]. simpl.
    rewrite fanOut_fmap, <- app_assoc. reflexivity.
Qed.

Lemma foldl_fmap_deliver rs : forall rv : list Expiration,
  foldl (fun rv dr => (fun e => deliver e dr) <$> rv) rv rs
  = (fun e => foldl deliver e rs) <$> rv.
Proof.
  induction rs as [|dr rs IH]; intros rv; simpl.
  - rewrite list_fmap_id. reflexivity.
  - rewrite IH, <- list_fmap_compose. reflexivity.
Qed.

Lemma lookupAll_keys keys : forall w, (lookupAll keys w).1.*1 = keys.
Proof.
  induction keys as [|domain keys IH]; intros w; simpl; [reflexivity |].
  destruct (getDomainExpiration domain w) as [r w1].
  specialize (IH w1). destruct (lookupAll keys w1) as [rs w2].
  simpl in *. f_equal. exact IH.
Qed.

Lemma probeAll_length hostnames : forall w,
  length (probeAll hostnames w).1 = length hostnames.
Proof.
  induction hostnames as [|h hs IH]; intros w; simpl; [reflexivity |].
  destruct (getCertExpiration h w) as [r w1].
  specialize (IH w1). destruct (probeAll hs w1) as [rs w2].
  simpl in *. rewrite IH. reflexivity.
Qed.

Lemma nameLoop_eq hostnames rv :
  length rv = length hostnames ->
  nameLoop hostnames rv = zip_with setName hostnames rv.
Proof. exact (nameLoop_from hostnames [] rv). Qed.

Lemma certLoop_eq hostnames rv w :
  length rv = length hostnames ->
  certLoop getCertExpiration hostnames (rv, w)
  = (zip_with setCertificate (probeAll hostnames w).1 rv,
     (probeAll hostnames w).2).
Proof. exact (certLoop_from hostnames [] rv w). Qed.

Lemma domainLoop_eq hostnames rv :
  length rv = length hostnames ->
  domainLoop EffectiveTLDPlusOne hostnames (∅, rv)
  = (apexSet hostnames, zip_with withApex hostnames rv).
Proof. exact (domainLoop_from hostnames [] rv ∅). Qed.

(** *** The whole run *)

(** [getExpirations] hostname by hostname: the certificate lookups in
    hostname order, then one registration lookup for each key of the
    map in the order [range] picks, each result handed to the reports
    of that domain. *)
Lemma getExpirations_eq hostnames w :
  getExpirations hostnames w
  = let cs := (probeAll hostnames w).1 in
    let keys := rangeOrder (apexSet hostnames) in
    let found := lookupAll keys (probeAll hostnames w).2 in
    mkRun ((fun e => foldl deliver e found.1) <$>
             zip_with withApex hostnames
               (zip_with setCertificate cs
                  (zip_with setName hostnames
                     (replicate (length hostnames) zeroExpiration))))
          keys found.2.
Proof.
  unfold Certexp.getExpirations.
  set (rv0 := replicate (length hostnames) zeroExpiration).
  assert (H0 : length rv0 = length hostnames) by apply length_replicate.
  rewrite (nameLoop_eq hostnames rv0 H0).
  assert (H1 : length (zip_with setName hostnames rv0) = length hostnames).
  { rewrite length_zip_with. lia. }
  rewrite (certLoop_eq hostnames _ w H1).
  assert (H2 : length (zip_with setCertificate (probeAll hostnames w).1
                         (zip_with setName hostnames rv0))
               = length hostnames).
  { rewrite length_zip_with, probeAll_length. lia. }
  rewrite (domainLoop_eq hostnames _ H2).
  rewrite lookupLoop_eq, foldl_fmap_deliver. reflexivity.
Qed.

Lemma getExpirations_length hostnames w :
  length (reports (getExpirations hostnames w)) = length hostnames.
Proof.
  rewrite getExpirations_eq. simpl.
  rewrite length_fmap, !length_zip_with, probeAll_length, length_replicate.
  lia.
Qed.

Lemma getExpirations_lookups hostnames w :
  lookups (getExpirations hostnames w) = rangeOrder (apexSet hostnames).
Proof. rewrite getExpirations_eq. reflexivity. Qed.

(** The report at position [i]. *)
Lemma report_at hostnames w i h :
  hostnames !! i = Some h ->
  exists c,
    (probeAll hostnames w).1 !! i = Some c
    /\ reports (getExpirations hostnames w) !! i
       = Some (foldl deliver (draft h c)
                 (lookupAll (rangeOrder (apexSet hostnames))
                            (probeAll hostnames w).2).1).
Proof.
  intros Hh.
  assert (Hi : i < length hostnames) by (apply lookup_lt_is_Some; eauto).
  destruct (lookup_lt_is_Some_2 (probeAll hostnames w).1 i) as [c Hc].
  { rewrite probeAll_length. exact Hi. }
  exists c. split; [exact Hc |].
  rewrite getExpirations_eq. simpl.
  rewrite list_lookup_fmap, !lookup_zip_with, Hh, Hc. simpl.
  rewrite lookup_replicate_2 by exact Hi. reflexivity.
Qed.

(** *** What the registration results do to one report *)

Lemma foldl_deliver_fixed rs : forall e,
  Name (foldl deliver e rs) = Name e
  /\ CertificateExpires (foldl deliver e rs) = CertificateExpires e
  /\ CertificateError (foldl deliver e rs) = CertificateError e
  /\ Domain (foldl deliver e rs) = Domain e.
Proof.
  induction rs as [|dr rs IH]; intros e; simpl; [repeat split |].
  destruct (IH (deliver e dr)) as (-> & -> & -> & ->).
  unfold deliver. destruct (String.eqb (Domain e) dr.1); repeat split.
Qed.

Lemma foldl_deliver_absent rs : forall e,
  Domain e ∉ rs.*1 -> foldl deliver e rs = e.
Proof.
  induction rs as [|[d r] rs IH]; intros e Hnot; simpl; [reflexivity |].
  apply not_elem_of_cons in Hnot as [Hne Hnot]. simpl in Hne.
  unfold deliver at 2. simpl.
  destruct (String.eqb (Domain e) d) eqn:Hd.
  - apply String.eqb_eq in Hd. contradiction.
  - apply IH. exact Hnot.
Qed.

Lemma foldl_deliver_present rs : forall e r,
  NoDup rs.*1 -> (Domain e, r) ∈ rs ->
  (DomainExpires (foldl deliver e rs), DomainError (foldl deliver e rs)) = r.
Proof.
  induction rs as [|[d r'] rs IH]; intros e r Hnd Hin; [inversion Hin |].
  simpl in Hnd. apply NoDup_cons in Hnd as [Hfresh Hnd].
  simpl. apply elem_of_cons in Hin as [Heq | Hin].
  - injection Heq as <- <-.
    assert (He1 : deliver e (Domain e, r) = setRegistration r e).
    { unfold deliver. simpl. rewrite String.eqb_refl. reflexivity. }
    rewrite He1, foldl_deliver_absent by exact Hfresh.
    destruct r. reflexivity.
  - assert (He1 : deliver e (d, r') = e).
    { unfold deliver. simpl.
      destruct (String.eqb (Domain e) d) eqn:Hd; [| reflexivity].
      apply String.eqb_eq in Hd. exfalso. apply Hfresh. rewrite <- Hd.
      apply (list_elem_of_fmap_2 fst _ _ Hin). }
    rewrite He1. apply IH; assumption.
Qed.

(** *** The keys of the map *)

Lemma foldl_addApex_lookup hostnames : forall domains d,
  is_Some (foldl addApex domains hostnames !! d)
  <-> is_Some (domains !! d)
      \/ exists h, h ∈ hostnames /\ apexOf h = Some d.
Proof.
  induction hostnames as [|h hs IH]; intros domains d; simpl.
  - split; [auto |]. intros [H | (h & Hin & _)]; [exact H | inversion Hin].
  - rewrite IH. unfold Certexp.addApex at 1.
    destruct (apexOf h) as [d'|] eqn:Hh.
    + rewrite lookup_insert_is_Some. split.
      * intros [[-> | [_ Hd]] | (h' & Hin & Hh')].
        -- right. exists h. split; [left | exact Hh].
        -- left. exact Hd.
        -- right. exists h'. split; [right; exact Hin | exact Hh'].
      * intros [Hd | (h' & Hin & Hh')].
        -- left. destruct (decide (d' = d)) as [-> | Hne]; [left; reflexivity |].
           right. split; assumption.
        -- apply elem_of_cons in Hin as [-> | Hin].
           ++ left. left. congruence.
           ++ right. exists h'. split; assumption.
    + split.
      * intros [Hd | (h' & Hin & Hh')]; [left; exact Hd |].
        right. exists h'. split; [right; exact Hin | exact Hh'].
      * intros [Hd | (h' & Hin & Hh')]; [left; exact Hd |].
        apply elem_of_cons in Hin as [-> | Hin]; [congruence |].
        right. exists h'. split; assumption.
Qed.

Lemma apexSet_lookup hostnames d :
  is_Some (apexSet hostnames !! d)
  <-> exists h, h ∈ hostnames /\ apexOf h = Some d.
Proof.
  unfold Certexp.apexSet. rewrite foldl_addApex_lookup, lookup_empty.
  split; [| auto]. intros [[x Hx] | H]; [discriminate | exact H].
Qed.

Section RangeOrder.

(** [range] visits every key of the map once. *)
Hypothesis rangeOrder_keys :
  forall domains, rangeOrder domains ≡ₚ (map_to_list domains).*1.

Lemma rangeOrder_NoDup domains : NoDup (rangeOrder domains).
Proof. rewrite rangeOrder_keys. apply NoDup_fst_map_to_list. Qed.

Lemma rangeOrder_elem domains d :
  d ∈ rangeOrder domains <-> is_Some (domains !! d).
Proof.
  rewrite rangeOrder_keys, list_elem_of_fmap. split.
  - intros ([d' x] & -> & Hin). apply elem_of_map_to_list in Hin.
    simpl. eauto.
  - intros [x Hx]. exists (d, x). split; [reflexivity |].
    apply elem_of_map_to_list. exact Hx.
Qed.

Lemma lookups_NoDup hostnames w :
  NoDup (lookups (getExpirations hostnames w)).
Proof. rewrite getExpirations_lookups. apply rangeOrder_NoDup. Qed.

Lemma lookups_elem hostnames w d :
  d ∈ lookups (getExpirations hostnames w)
  <-> exists h, h ∈ hostnames /\ apexOf h = Some d.
Proof.
  rewrite getExpirations_lookups, rangeOrder_elem. apply apexSet_lookup.
Qed.

End RangeOrder.

End AggregateFacts.

(** ** The batch as the presentation layer sees it *)

Section BatchFacts.

Context {World : Type}.
Variable getCertExpiration : string -> World -> (Time * error) * World.
Variable getDomainExpiration : string -> World -> (Time * error) * World.
Variable EffectiveTLDPlusOne : string -> string * error.
Variable rangeOrder : gmap string bool -> list string.

Local Abbreviation apexOf := (Certexp.apexOf EffectiveTLDPlusOne).
Local Abbreviation probeAll := (Certexp.probeAll getCertExpiration).
Local Abbreviation lookupAll := (Certexp.lookupAll getDomainExpiration).
Local Abbreviation draft := (Certexp.draft EffectiveTLDPlusOne).
Local Abbreviation getExpirations :=
  (Certexp.getExpirations getCertExpiration getDomainExpiration
                          EffectiveTLDPlusOne rangeOrder).

Lemma draft_resolved h c d :
  apexOf h = Some d ->
  draft h c = mkExpiration h c.1 c.2 d zero None.
Proof.
  intros Hd. unfold Certexp.draft, withApex. rewrite Hd. reflexivity.
Qed.

Lemma draft_unresolved h c :
  apexOf h = None ->
  draft h c = mkExpiration h c.1 c.2 "" zero None.
Proof.
  intros Hd. unfold Certexp.draft, withApex. rewrite Hd. reflexivity.
Qed.

(** The report of a hostname without an apex domain: its name, its own
    certificate result, and nothing else. *)
Lemma unresolved_report hostnames w i h :
  (forall domains, rangeOrder domains ≡ₚ (map_to_list domains).*1) ->
  (forall h' d, apexOf h' = Some d -> d <> ""%string) ->
  hostnames !! i = Some h -> apexOf h = None ->
  exists c,
    (probeAll hostnames w).1 !! i = Some c
    /\ reports (getExpirations hostnames w) !! i
       = Some (mkExpiration h c.1 c.2 "" zero None).
Proof.
  intros Hkeys Hne Hh Hnone.
  destruct (report_at getCertExpiration getDomainExpiration
              EffectiveTLDPlusOne rangeOrder hostnames w i h Hh)
    as (c & Hc & Hr).
  exists c. split; [exact Hc |].
  rewrite Hr, draft_unresolved by exact Hnone.
  rewrite foldl_deliver_absent; [reflexivity |].
  rewrite lookupAll_keys. simpl. intros Hin.
  apply rangeOrder_elem in Hin; [| exact Hkeys].
  apply apexSet_lookup in Hin as (h' & _ & Hh').
  exact (Hne h' _ Hh' eq_refl).
Qed.

(** In a run in which the lookups return, the slice has one report per
    hostname, in the order of the hostnames: the names of the reports
    are the hostnames, and the certificate fields of the reports are
    the outcomes of the certificate lookups, error included. *)
Theorem getExpirations_one_per_hostname hostnames w :
  let run := getExpirations hostnames w in
  length (reports run) = length hostnames
  /\ Name <$> reports run = hostnames
  /\ (fun e => (CertificateExpires e, CertificateError e)) <$> reports run
     = (probeAll hostnames w).1.
Proof.
  pose proof (getExpirations_length getCertExpiration getDomainExpiration
                EffectiveTLDPlusOne rangeOrder hostnames w) as Hlen.
  simpl. split; [exact Hlen |]. split.
  - apply list_eq. intros i. rewrite list_lookup_fmap.
    destruct (hostnames !! i) as [h|] eqn:Hh.
    + destruct (report_at getCertExpiration getDomainExpiration
                  EffectiveTLDPlusOne rangeOrder hostnames w i h Hh)
        as (c & _ & ->).
      simpl. f_equal.
      destruct (foldl_deliver_fixed
                  (lookupAll (rangeOrder (apexSet EffectiveTLDPlusOne hostnames))
                             (probeAll hostnames w).2).1 (draft h c))
        as (-> & _).
      unfold Certexp.draft, withApex. destruct (apexOf h); reflexivity.
    + apply lookup_ge_None in Hh.
      rewrite (proj2 (lookup_ge_None _ i)) by lia. reflexivity.
  - apply list_eq. intros i. rewrite list_lookup_fmap.
    destruct (hostnames !! i) as [h|] eqn:Hh.
    + destruct (report_at getCertExpiration getDomainExpiration
                  EffectiveTLDPlusOne rangeOrder hostnames w i h Hh)
        as (c & -> & ->).
      simpl. f_equal.
      destruct (foldl_deliver_fixed
                  (lookupAll (rangeOrder (apexSet EffectiveTLDPlusOne hostnames))
                             (probeAll hostnames w).2).1 (draft h c))
        as (_ & -> & -> & _).
      unfold Certexp.draft, withApex. destruct (apexOf h), c; reflexivity.
    + apply lookup_ge_None in Hh.
      rewrite (proj2 (lookup_ge_None (reports _) i)) by lia.
      rewrite (proj2 (lookup_ge_None (probeAll hostnames w).1 i));
        [reflexivity |].
      rewrite probeAll_length. exact Hh.
Qed.




End BatchFacts.

(** ** The sample world *)

Section SampleWorld.

Lemma sampleOrder_keys domains :
  sampleOrder domains ≡ₚ (map_to_list domains).*1.
Proof. reflexivity. Qed.

Lemma sampleApex_nonempty h d :
  apexOf sampleApex h = Some d -> d <> ""%string.
Proof.
  unfold apexOf, sampleApex.
  repeat (destruct (String.eqb h _); [intros [= <-]; discriminate |]).
  discriminate.
Qed.

(** [a.example.com] and [b.example.com] share one lookup and one
    registration record; [localhost] keeps its place in between. *)
Example sample_run :
  getExpirations sampleCert sampleWhois sampleApex sampleOrder sampleHosts 0
  = mkRun
      [ mkExpiration "a.example.com" 1000%Z None "example.com" 2003%Z None;
        mkExpiration "localhost" zero (Some "dial tcp: i/o timeout"%string)
                     "" zero None;
        mkExpiration "b.example.com" zero (Some "dial tcp: i/o timeout"%string)
                     "example.com" 2003%Z None ]
      [ "example.com"%string ] 4.
Proof. vm_compute. reflexivity. Qed.

End SampleWorld.




(** ** Paths and hostnames *)

Section StringFacts.

Local Open Scope string_scope.

Lemma append_cons a s t : String a s ++ t = String a (s ++ t).
Proof. reflexivity. Qed.

Lemma append_empty_l t : "" ++ t = t.
Proof. reflexivity. Qed.

Lemma append_empty_r s : s ++ "" = s.
Proof.
  induction s as [|a s IH]; [reflexivity |].
  rewrite append_cons, IH. reflexivity.
Qed.

Lemma append_assoc s t u : (s ++ t) ++ u = s ++ (t ++ u).
Proof.
  induction s as [|a s IH]; [reflexivity |].
  rewrite !append_cons, IH. reflexivity.
Qed.

Lemma length_append s t :
  String.length (s ++ t) = (String.length s + String.length t)%nat.
Proof.
  induction s as [|a s IH]; [reflexivity |].
  rewrite append_cons. simpl. rewrite IH. reflexivity.
Qed.

Lemma Split_not_nil s sep : Split s sep <> [].
Proof.
  destruct s as [|a s]; simpl; [discriminate |].
  destruct (Ascii.eqb a sep); [discriminate |].
  destruct (Split s sep); discriminate.
Qed.

Lemma Split_length s sep : length (Split s sep) = S (Count s sep).
Proof.
  induction s as [|a s IH]; simpl; [reflexivity |].
  destruct (Ascii.eqb a sep); simpl; [rewrite IH; reflexivity |].
  destruct (Split s sep) as [|piece pieces] eqn:Hs; simpl in *.
  - discriminate.
  - exact IH.
Qed.

Lemma Join_Split s sep : Join (Split s sep) (String sep "") = s.
Proof.
  induction s as [|a s IH]; simpl; [reflexivity |].
  destruct (Ascii.eqb a sep) eqn:Ha.
  - apply Ascii.eqb_eq in Ha. subst a.
    destruct (Split s sep) as [|piece pieces] eqn:Hs.
    + exfalso. exact (Split_not_nil s sep Hs).
    + cbn [Join]. cbn [Join] in IH.
      rewrite append_empty_l, append_cons, append_empty_l, IH. reflexivity.
  - destruct (Split s sep) as [|piece pieces] eqn:Hs.
    + exfalso. exact (Split_not_nil s sep Hs).
    + destruct pieces as [|piece' pieces]; cbn [Join] in *.
      * rewrite IH. reflexivity.
      * rewrite append_cons, IH. reflexivity.
Qed.

Lemma Split_pieces s sep : forall piece,
  piece ∈ Split s sep -> Count piece sep = 0%nat.
Proof.
  induction s as [|a s IH]; simpl; intros piece Hin.
  - apply list_elem_of_singleton in Hin as ->. reflexivity.
  - destruct (Ascii.eqb a sep) eqn:Ha.
    + apply elem_of_cons in Hin as [-> | Hin]; [reflexivity | auto].
    + destruct (Split s sep) as [|p ps] eqn:Hs.
      * exfalso. exact (Split_not_nil s sep Hs).
      * apply elem_of_cons in Hin as [-> | Hin].
        -- simpl. rewrite Ha. simpl. apply IH. left.
        -- apply IH. right. exact Hin.
Qed.

Lemma Split_whole s sep : Count s sep = 0%nat -> Split s sep = [s].
Proof.
  induction s as [|a s IH]; simpl; [reflexivity |].
  destruct (Ascii.eqb a sep); simpl; [discriminate |].
  intros Hc. rewrite IH by exact Hc. reflexivity.
Qed.

Lemma Split_append s sep rest :
  Count s sep = 0%nat ->
  Split (s ++ String sep rest) sep = s :: Split rest sep.
Proof.
  induction s as [|a s IH]; intros Hc.
  - rewrite append_empty_l. simpl. rewrite Ascii.eqb_refl. reflexivity.
  - rewrite append_cons. simpl in *.
    destruct (Ascii.eqb a sep); simpl in Hc; [discriminate |].
    rewrite IH by exact Hc. reflexivity.
Qed.

Lemma Split_Join pieces sep :
  pieces <> [] ->
  (forall piece, piece ∈ pieces -> Count piece sep = 0%nat) ->
  Split (Join pieces (String sep "")) sep = pieces.
Proof.
  induction pieces as [|p ps IH]; intros Hne Hc; [congruence |].
  destruct ps as [|p' ps].
  - cbn [Join]. apply Split_whole. apply Hc. left.
  - cbn [Join]. cbn [Join] in IH.
    rewrite append_cons, append_empty_l.
    rewrite Split_append by (apply Hc; left).
    f_equal. apply IH; [discriminate |].
    intros piece Hin. apply Hc. right. exact Hin.
Qed.

Lemma TrimRight_append_sep s c :
  TrimRight (s ++ String c "") c = TrimRight s c.
Proof.
  induction s as [|a s IH].
  - rewrite append_empty_l. simpl. rewrite Ascii.eqb_refl. reflexivity.
  - rewrite append_cons. simpl. rewrite IH. reflexivity.
Qed.

Lemma TrimLeft_append_sep s c :
  TrimLeft (s ++ String c "") c
  = match TrimLeft s c with
    | "" => ""
    | t => t ++ String c ""
    end.
Proof.
  induction s as [|a s IH].
  - rewrite append_empty_l. simpl. rewrite Ascii.eqb_refl. reflexivity.
  - rewrite append_cons. simpl.
    destruct (Ascii.eqb a c); [exact IH |]. reflexivity.
Qed.

Lemma Trim_cons_sep s c : Trim (String c s) c = Trim s c.
Proof. unfold Trim. simpl. rewrite Ascii.eqb_refl. reflexivity. Qed.

Lemma Trim_append_sep s c : Trim (s ++ String c "") c = Trim s c.
Proof.
  unfold Trim. rewrite TrimLeft_append_sep.
  destruct (TrimLeft s c) as [|a t] eqn:Ht; [reflexivity |].
  apply TrimRight_append_sep.
Qed.

Lemma HasPrefix_append p s : HasPrefix (p ++ s) p = true.
Proof.
  unfold HasPrefix. induction p as [|a p IH].
  - rewrite append_empty_l. destruct s; reflexivity.
  - rewrite append_cons. simpl.
    destruct (ascii_dec a a) as [_ | Hne]; [exact IH | congruence].
Qed.

Lemma dropBytes_append p s : dropBytes (String.length p) (p ++ s) = s.
Proof.
  induction p as [|a p IH]; [destruct s; reflexivity |].
  rewrite append_cons. simpl. exact IH.
Qed.

Lemma TrimPrefix_append p s : TrimPrefix (p ++ s) p = s.
Proof.
  unfold TrimPrefix. rewrite HasPrefix_append. apply dropBytes_append.
Qed.

End StringFacts.

Section PathFacts.

Local Open Scope string_scope.

(** X1. The hostnames of a request path are the pieces between the
    commas of the path without its leading and trailing slashes: there
    is always at least one (one more than there are commas), none
    contains a comma, and joined with commas they give the trimmed path
    back. *)
Theorem hostnamesOf_pieces path :
  hostnamesOf path <> []
  /\ length (hostnamesOf path) = S (Count (Trim path slash) comma)
  /\ Join (hostnamesOf path) (String comma "") = Trim path slash
  /\ (forall h, h ∈ hostnamesOf path -> hasByte h comma = false).
Proof.
  unfold hostnamesOf. split; [apply Split_not_nil |].
  split; [apply Split_length |]. split; [apply Join_Split |].
  intros h Hin. unfold hasByte.
  rewrite (Split_pieces _ _ h Hin). reflexivity.
Qed.

(** X2. A slash in front of the path or behind it does not change the
    hostnames. *)
Theorem hostnamesOf_slashes path :
  hostnamesOf (String slash path) = hostnamesOf path
  /\ hostnamesOf (path ++ String slash "") = hostnamesOf path.
Proof.
  unfold hostnamesOf. rewrite Trim_cons_sep, Trim_append_sep.
  split; reflexivity.
Qed.

(** X3. A path that starts with [/ical/], [/json/] or [/text/] is
    served as the rest of the path with the [Accept] header replaced by
    the media type of that format; the [ttl] and [quiet] parameters are
    kept, and the hostnames are those of the rest of the path. *)
Theorem route_format_prefix rest accept ttl q :
  route (mkRequest ("/ical/" ++ rest) accept ttl q)
  = ToExpirations (mkRequest ("/" ++ rest) (Some "text/calendar") ttl q)
  /\ route (mkRequest ("/json/" ++ rest) accept ttl q)
     = ToExpirations (mkRequest ("/" ++ rest) (Some "application/json") ttl q)
  /\ route (mkRequest ("/text/" ++ rest) accept ttl q)
     = ToExpirations (mkRequest ("/" ++ rest) (Some "text/plain") ttl q)
  /\ hostnamesOf ("/" ++ rest) = hostnamesOf rest.
Proof.
  assert (Hical : HasPrefix ("/ical/" ++ rest) "/ical/" = true)
    by apply HasPrefix_append.
  assert (Hjson : HasPrefix ("/json/" ++ rest) "/json/" = true)
    by apply HasPrefix_append.
  assert (Htext : HasPrefix ("/text/" ++ rest) "/text/" = true)
    by apply HasPrefix_append.
  assert (Tical : TrimPrefix ("/ical/" ++ rest) "/ical" = "/" ++ rest)
    by apply (TrimPrefix_append "/ical" ("/" ++ rest)).
  assert (Tjson : TrimPrefix ("/json/" ++ rest) "/json" = "/" ++ rest)
    by apply (TrimPrefix_append "/json" ("/" ++ rest)).
  assert (Ttext : TrimPrefix ("/text/" ++ rest) "/text" = "/" ++ rest)
    by apply (TrimPrefix_append "/text" ("/" ++ rest)).
  split; [| split; [| split]].
  - unfold route. cbn [Path]. rewrite Hical, Tical. reflexivity.
  - unfold route. cbn [Path]. rewrite Hjson, Tjson. reflexivity.
  - unfold route. cbn [Path]. rewrite Htext, Ttext. reflexivity.
  - change ("/" ++ rest) with (String slash rest).
    unfold hostnamesOf. rewrite Trim_cons_sep. reflexivity.
Qed.

End PathFacts.

(** ** The quiet filter and the cutoff *)

Section QuietFacts.

Lemma OK_flags e soon : OK e soon = negb (hardErrorb e || soonb soon e).
Proof.
  unfold OK, hardErrorb, soonb.
  destruct (CertificateError e), (DomainError e);
    repeat (destruct (Before _ soon)); reflexivity.
Qed.

Lemma OK_earlier_cutoff e soon soon' :
  (soon' <= soon)%Z -> OK e soon = true -> OK e soon' = true.
Proof.
  intros Hle. unfold OK.
  destruct (CertificateError e); [discriminate |].
  destruct (Before (CertificateExpires e) soon) eqn:Hc; [discriminate |].
  destruct (DomainError e); [discriminate |].
  destruct (Before (DomainExpires e) soon) eqn:Hd; [discriminate |].
  intros _. apply Before_ge in Hc, Hd.
  rewrite (proj2 (Before_ge (CertificateExpires e) soon')) by lia.
  rewrite (proj2 (Before_ge (DomainExpires e) soon')) by lia.
  reflexivity.
Qed.

Lemma existsb_false {A} (f : A -> bool) (l : list A) :
  existsb f l = false <-> forall x, x ∈ l -> f x = false.
Proof.
  induction l as [|a l IH]; simpl.
  - split; [intros _ x Hx; inversion Hx | reflexivity].
  - rewrite orb_false_iff, IH. split.
    + intros [Ha Hl] x Hx. apply elem_of_cons in Hx as [-> | Hx]; auto.
    + intros H. split; [apply H; left |].
      intros x Hx. apply H. right. exact Hx.
Qed.

(** The loop keeps the unread part of the array as it was, and the
    first [j] cells hold the reports kept so far. *)
Lemma filterLoop_spec soon (orig : list Expiration) n : forall i j arr,
  j <= i -> i + n = length orig -> length arr = length orig ->
  drop i arr = drop i orig ->
  take j arr = filter (fun e => OK e soon = false) (take i orig) ->
  take (filterLoop soon n i j arr).1 (filterLoop soon n i j arr).2
  = filter (fun e => OK e soon = false) orig.
Proof.
  induction n as [|n IH]; intros i j arr Hji Hin Hlen Hdrop Htake; simpl.
  - rewrite Htake, take_ge by lia. reflexivity.
  - assert (Hi : i < length orig) by lia.
    destruct (lookup_lt_is_Some_2 orig i Hi) as [e He].
    assert (Hread : arr !! i = Some e).
    { rewrite <- (Nat.add_0_r i), <- lookup_drop, Hdrop, lookup_drop,
        Nat.add_0_r. exact He. }
    rewrite Hread.
    assert (Hnext : take (S i) orig = take i orig ++ [e])
      by (apply take_S_r; exact He).
    assert (Hdrop' : drop (S i) arr = drop (S i) orig).
    { replace (S i) with (i + 1) by lia.
      rewrite <- !drop_drop, Hdrop. reflexivity. }
    destruct (OK e soon) eqn:Hok.
    + apply IH; [lia | lia | exact Hlen | exact Hdrop' |].
      rewrite Hnext, filter_app, Htake.
      rewrite (filter_cons_False _ e []) by (rewrite Hok; discriminate).
      rewrite filter_nil, app_nil_r. reflexivity.
    + apply IH; [lia | lia | | |].
      * rewrite length_insert. exact Hlen.
      * rewrite drop_insert_lt by lia. exact Hdrop'.
      * rewrite Hnext, filter_app, <- Htake.
        rewrite (filter_cons_True _ e []) by exact Hok.
        rewrite filter_nil.
        rewrite (take_S_r _ j e).
        -- rewrite take_insert_ge by lia. reflexivity.
        -- apply list_lookup_insert_eq. lia.
Qed.

Lemma quietFilter_eq es soon :
  quietFilter es soon = filter (fun e => OK e soon = false) es.
Proof.
  unfold quietFilter.
  pose proof (filterLoop_spec soon es (length es) 0 0 es) as H.
  destruct (filterLoop soon (length es) 0 0 es) as [j arr].
  apply H; auto.
Qed.

Lemma healthy_all_OK es soon :
  classify es soon = healthy <-> forall e, e ∈ es -> OK e soon = true.
Proof.
  unfold classify, classifyFlags, scanFlags.
  destruct (foldl_flagStep soon es (mkFlags false false)) as [-> ->]. simpl.
  split.
  - intros Hc e Hin. rewrite OK_flags.
    destruct (existsb hardErrorb es) eqn:He; [discriminate |].
    destruct (existsb (soonb soon) es) eqn:Hs; [discriminate |].
    rewrite (proj1 (existsb_false _ _) He e Hin).
    rewrite (proj1 (existsb_false _ _) Hs e Hin). reflexivity.
  - intros Hall.
    assert (He : existsb hardErrorb es = false).
    { apply existsb_false. intros e Hin.
      specialize (Hall e Hin). rewrite OK_flags in Hall.
      destruct (hardErrorb e); [discriminate | reflexivity]. }
    assert (Hs : existsb (soonb soon) es = false).
    { apply existsb_false. intros e Hin.
      specialize (Hall e Hin). rewrite OK_flags in Hall.
      destruct (hardErrorb e), (soonb soon e); try discriminate; reflexivity. }
    rewrite He, Hs. reflexivity.
Qed.

Lemma wrap64_neg ttl :
  (minDuration < ttl <= maxDuration)%Z -> wrap64 (-1 * ttl) = (- ttl)%Z.
Proof.
  unfold minDuration, maxDuration, wrap64. intros H.
  rewrite Z.mod_small by lia. lia.
Qed.

(** X4. The quiet filter, which builds its result inside the array of
    the slice it is reading, returns the reports that are not OK at the
    cutoff, in their order and with their contents untouched. *)
Theorem quietFilter_not_OK es soon :
  quietFilter es soon = filter (fun e => OK e soon = false) es.
Proof. exact (quietFilter_eq es soon). Qed.

(** X5. A batch is classified healthy exactly when every report is OK at
    the cutoff, and exactly then the quiet filter leaves nothing. *)
Theorem healthy_iff_all_OK es soon :
  (classify es soon = healthy <-> forall e, e ∈ es -> OK e soon = true)
  /\ (quietFilter es soon = [] <-> classify es soon = healthy).
Proof.
  split; [apply healthy_all_OK |].
  rewrite quietFilter_eq, healthy_all_OK. split.
  - intros Hnil e Hin. destruct (OK e soon) eqn:Hok; [reflexivity |].
    exfalso. apply (filter_nil_not_elem_of _ _ e Hnil Hok Hin).
  - intros Hall. induction es as [|e es IH]; [reflexivity |].
    rewrite filter_cons_False.
    + apply IH. intros e' Hin. apply Hall. right. exact Hin.
    + rewrite (Hall e) by left. discriminate.
Qed.

(** X6. For a [ttl] above the least [int64] the cutoff is [now - ttl].
    So a longer [ttl] moves the cutoff back in time: a report that is OK
    for one [ttl] is OK for every longer one. *)
Theorem longer_ttl_keeps_OK now ttl ttl' e :
  (minDuration < ttl <= maxDuration)%Z ->
  (ttl <= ttl' <= maxDuration)%Z ->
  cutoff now ttl = (now - ttl)%Z
  /\ (cutoff now ttl' <= cutoff now ttl)%Z
  /\ (OK e (cutoff now ttl) = true -> OK e (cutoff now ttl') = true).
Proof.
  intros H1 H2.
  assert (Hc : cutoff now ttl = (now - ttl)%Z).
  { unfold cutoff, Add. rewrite wrap64_neg by exact H1. lia. }
  assert (Hc' : cutoff now ttl' = (now - ttl')%Z).
  { unfold cutoff, Add. rewrite wrap64_neg by lia. lia. }
  split; [exact Hc |]. split; [lia |].
  apply OK_earlier_cutoff. lia.
Qed.

Lemma longer_ttl_keeps_OK_witness :
  (minDuration < 24 * Hour <= maxDuration)%Z
  /\ (24 * Hour <= defaultTTL <= maxDuration)%Z
  /\ cutoff (Date 2025 1 31) (24 * Hour) = (Date 2025 1 31 - 24 * Hour)%Z
  /\ (cutoff (Date 2025 1 31) defaultTTL
      <= cutoff (Date 2025 1 31) (24 * Hour))%Z
  /\ (OK (mkExpiration "a.example.com" (Date 2025 1 30) None
                       "example.com" (Date 2026 1 1) None)
         (cutoff (Date 2025 1 31) (24 * Hour)) = true ->
      OK (mkExpiration "a.example.com" (Date 2025 1 30) None
                       "example.com" (Date 2026 1 1) None)
         (cutoff (Date 2025 1 31) defaultTTL) = true).
Proof.
  assert (H1 : (minDuration < 24 * Hour <= maxDuration)%Z)
    by (vm_compute; split; [reflexivity | discriminate]).
  assert (H2 : (24 * Hour <= defaultTTL <= maxDuration)%Z)
    by (vm_compute; split; discriminate).
  split; [exact H1 |]. split; [exact H2 |].
  exact (longer_ttl_keeps_OK (Date 2025 1 31) (24 * Hour) defaultTTL
           (mkExpiration "a.example.com" (Date 2025 1 30) None
                         "example.com" (Date 2026 1 1) None) H1 H2).
Defined.

End QuietFacts.

(** ** The responses of the handler *)

Section ServeFacts.

Context {World : Type}.
Variable getCertExpiration : string -> World -> (Time * error) * World.
Variable getDomainExpiration : string -> World -> (Time * error) * World.
Variable EffectiveTLDPlusOne : string -> string * error.
Variable rangeOrder : gmap string bool -> list string.
Variable NegotiateContentType : option string -> list string -> string -> string.
Variable ParseDuration : string -> Z * error.
Variable timeString : Time -> string.
Variable FormatDateField : string -> Time -> string * string.

Local Abbreviation getExpirations :=
  (Certexp.getExpirations getCertExpiration getDomainExpiration
                          EffectiveTLDPlusOne rangeOrder).
Local Abbreviation serveExpirations :=
  (Handler.serveExpirations getCertExpiration getDomainExpiration
     EffectiveTLDPlusOne rangeOrder NegotiateContentType ParseDuration
     timeString FormatDateField).
Local Abbreviation ttlOf := (Handler.ttlOf ParseDuration).
Local Abbreviation Text := (Handler.Text timeString).
Local Abbreviation serveExpirationsText :=
  (Handler.serveExpirationsText timeString).
Local Abbreviation serveExpirationsIcal :=
  (Handler.serveExpirationsIcal timeString FormatDateField).

Lemma textLines_snoc (es : list Expiration) : forall evs,
  foldl (fun evs exp => evs ++ [Write (Bytes (Text exp ++ newline)%string)])
        evs es
  = evs ++ ((fun exp => Write (Bytes (Text exp ++ newline)%string)) <$> es).
Proof.
  induction es as [|e es IH]; intros evs; simpl.
  - rewrite app_nil_r. reflexivity.
  - rewrite IH, <- app_assoc. reflexivity.
Qed.

Lemma serveExpirationsText_lines es :
  serveExpirationsText es
  = HeaderAdd "Content-Type" "text/plain"
    :: ((fun exp => Write (Bytes (Text exp ++ newline)%string)) <$> es).
Proof.
  unfold Handler.serveExpirationsText. rewrite textLines_snoc. reflexivity.
Qed.

(** [serveExpirations] for a [ttl] that parses. *)
Lemma serveExpirations_parsed r w now calNow ttl :
  ttlOf r = (ttl, None) ->
  let run := getExpirations (hostnamesOf (Path r)) w in
  let soon := cutoff now ttl in
  let contentType := NegotiateContentType (Accept r) offers "text/plain" in
  serveExpirations r w now calNow
  = ((if String.eqb contentType "text/calendar" then []
      else statusEvents (classify (reports run) soon))
     ++ (if String.eqb contentType "application/json"
         then serveExpirationsJSON (shown r (reports run) soon)
         else if String.eqb contentType "text/plain"
         then serveExpirationsText (shown r (reports run) soon)
         else if String.eqb contentType "text/calendar"
         then serveExpirationsIcal calNow (shown r (reports run) soon)
         else []),
     run).
Proof.
  intros Httl. simpl. unfold Handler.serveExpirations. rewrite Httl.
  unfold shown. rewrite quietFilter_eq.
  unfold classify, classifyFlags, statusEvents.
  destruct (hasError _); [reflexivity |].
  destruct (hasExpirationSoon _); reflexivity.
Qed.

Lemma body_no_WriteHeader contentType calNow es :
  existsb isWriteHeader
    (if String.eqb contentType "application/json"
     then serveExpirationsJSON es
     else if String.eqb contentType "text/plain"
     then serveExpirationsText es
     else if String.eqb contentType "text/calendar"
     then serveExpirationsIcal calNow es
     else []) = false.
Proof.
  destruct (String.eqb contentType "application/json"); [reflexivity |].
  destruct (String.eqb contentType "text/plain").
  - rewrite serveExpirationsText_lines. simpl.
    induction es as [|e es IH]; [reflexivity | exact IH].
  - destruct (String.eqb contentType "text/calendar"); reflexivity.
Qed.




End ServeFacts.




(** ** The calendar *)

Section CalendarFacts.

Variable timeString : Time -> string.
Variable FormatDateField : string -> Time -> string * string.

Local Abbreviation certEvent := (Handler.certEvent timeString FormatDateField).
Local Abbreviation domainEvent := (Handler.domainEvent timeString FormatDateField).
Local Abbreviation EmitICal := (Handler.EmitICal timeString FormatDateField).
Local Abbreviation eventsOf := (Handler.eventsOf timeString FormatDateField).
Local Abbreviation uidsOf := (Handler.uidsOf timeString FormatDateField).

Local Open Scope string_scope.

Lemma append_same_suffix t : forall s s', s ++ t = s' ++ t -> s = s'.
Proof.
  induction s as [|a s IH]; intros [|b s'] H.
  - reflexivity.
  - apply (f_equal String.length) in H.
    rewrite append_empty_l, append_cons in H. simpl in H.
    rewrite length_append in H. lia.
  - apply (f_equal String.length) in H.
    rewrite append_empty_l, append_cons in H. simpl in H.
    rewrite length_append in H. lia.
  - rewrite !append_cons in H. injection H as -> H.
    f_equal. apply IH. exact H.
Qed.

Lemma append_longer_suffix t t' : forall s s',
  s ++ t = s' ++ t' -> String.length t' <= String.length t ->
  exists x, t = x ++ t'.
Proof.
  induction s as [|a s IH]; intros s' H Hlen.
  - exists s'. exact H.
  - destruct s' as [|b s'].
    + apply (f_equal String.length) in H.
      rewrite append_empty_l, append_cons in H. simpl in H.
      rewrite length_append in H. lia.
    + rewrite !append_cons in H. injection H as _ H.
      exact (IH s' H Hlen).
Qed.

Lemma uid_suffixes_differ n n' :
  n ++ "@certificates.expire.sh" <> n' ++ "@domain.expire.sh".
Proof.
  intros H.
  destruct (append_longer_suffix _ _ _ _ H) as [x Hx]; [simpl; lia |].
  assert (Hlen : String.length x = 6).
  { apply (f_equal String.length) in Hx. rewrite length_append in Hx.
    simpl in Hx. lia. }
  do 6 (destruct x as [|? x]; [discriminate Hlen |]).
  destruct x; [| discriminate Hlen].
  cbv in Hx. congruence.
Qed.

Lemma events_fold now es : forall c,
  foldl (fun c exp => AddComponent (domainEvent now exp)
                        (AddComponent (certEvent now exp) c)) c es
  = mkComponent (Tipo c) (Properties c) (Elements c ++ eventsOf now es).
Proof.
  induction es as [|e es IH]; intros [t ps els]; simpl.
  - rewrite app_nil_r. reflexivity.
  - rewrite IH. simpl. rewrite <- !app_assoc. reflexivity.
Qed.

Lemma EmitICal_eq now es :
  EmitICal now es
  = mkComponent "VCALENDAR"
      [("CALSCAL", "GREGORIAN"); ("PRODID;X-RICAL-TZSOURCE=TZINFO", "-//tmpo.io")]
      (eventsOf now es).
Proof. unfold Handler.EmitICal. rewrite events_fold. reflexivity. Qed.

Lemma certEvent_uid now e :
  uidOf (certEvent now e) = Some (Name e ++ "@certificates.expire.sh").
Proof.
  unfold uidOf, Handler.certEvent. destruct (CertificateError e); reflexivity.
Qed.

Lemma domainEvent_uid now e :
  uidOf (domainEvent now e) = Some (Name e ++ "@domain.expire.sh").
Proof.
  unfold uidOf, Handler.domainEvent. destruct (DomainError e); reflexivity.
Qed.

Lemma certEvent_Tipo now e : Tipo (certEvent now e) = "VEVENT".
Proof. unfold Handler.certEvent. destruct (CertificateError e); reflexivity. Qed.

Lemma domainEvent_Tipo now e : Tipo (domainEvent now e) = "VEVENT".
Proof. unfold Handler.domainEvent. destruct (DomainError e); reflexivity. Qed.

Lemma uidsOf_cons now e es :
  uidsOf now (e :: es)
  = Some (Name e ++ "@certificates.expire.sh")
    :: Some (Name e ++ "@domain.expire.sh") :: uidsOf now es.
Proof.
  unfold Handler.uidsOf, Handler.eventsOf. cbn [flat_map app].
  rewrite !fmap_cons, certEvent_uid, domainEvent_uid. reflexivity.
Qed.

Lemma cert_uid_elem now es n :
  Some (n ++ "@certificates.expire.sh") ∈ uidsOf now es <-> n ∈ Name <$> es.
Proof.
  induction es as [|e es IH].
  - split; intros H; inversion H.
  - rewrite uidsOf_cons, fmap_cons, !elem_of_cons, IH. split.
    + intros [H | [H | H]].
      * left. injection H as H. apply (append_same_suffix _ _ _ H).
      * injection H as H. exfalso. exact (uid_suffixes_differ _ _ H).
      * right. exact H.
    + intros [-> | H]; [left; reflexivity | right; right; exact H].
Qed.

Lemma domain_uid_elem now es n :
  Some (n ++ "@domain.expire.sh") ∈ uidsOf now es <-> n ∈ Name <$> es.
Proof.
  induction es as [|e es IH].
  - split; intros H; inversion H.
  - rewrite uidsOf_cons, fmap_cons, !elem_of_cons, IH. split.
    + intros [H | [H | H]].
      * injection H as H. exfalso. symmetry in H.
        exact (uid_suffixes_differ _ _ H).
      * left. injection H as H. apply (append_same_suffix _ _ _ H).
      * right. exact H.
    + intros [-> | H]; [right; left; reflexivity | right; right; exact H].
Qed.

(** X11. The calendar of a batch is a [VCALENDAR] with two [VEVENT]s for
    each report, in the order of the reports: first the certificate
    event, then the registration event of the same report. *)
Theorem EmitICal_two_events now es :
  Tipo (EmitICal now es) = "VCALENDAR"
  /\ Elements (EmitICal now es)
     = flat_map (fun e => [certEvent now e; domainEvent now e]) es
  /\ length (Elements (EmitICal now es)) = 2 * length es
  /\ (forall ev, ev ∈ Elements (EmitICal now es) -> Tipo ev = "VEVENT").
Proof.
  rewrite EmitICal_eq. simpl. split; [reflexivity |].
  split; [reflexivity |]. unfold Handler.eventsOf. split.
  - induction es as [|e es IH]; simpl; [reflexivity | rewrite IH; lia].
  - induction es as [|e es IH]; simpl; intros ev Hin; [inversion Hin |].
    apply elem_of_cons in Hin as [-> | Hin]; [apply certEvent_Tipo |].
    apply elem_of_cons in Hin as [-> | Hin]; [apply domainEvent_Tipo |].
    apply IH. exact Hin.
Qed.

(** X12. Every event of the calendar has a [UID], and the [UID]s of a
    calendar are pairwise different exactly when the names of the
    reports are: the certificate event and the registration event of
    any two reports never share one. *)
Theorem EmitICal_UIDs now es :
  (forall ev, ev ∈ Elements (EmitICal now es) -> is_Some (uidOf ev))
  /\ (NoDup (uidOf <$> Elements (EmitICal now es)) <-> NoDup (Name <$> es)).
Proof.
  rewrite EmitICal_eq. simpl. split.
  - unfold Handler.eventsOf.
    induction es as [|e es IH]; simpl; intros ev Hin; [inversion Hin |].
    apply elem_of_cons in Hin as [-> | Hin];
      [rewrite certEvent_uid; eauto |].
    apply elem_of_cons in Hin as [-> | Hin];
      [rewrite domainEvent_uid; eauto |].
    apply IH. exact Hin.
  - change (uidOf <$> eventsOf now es) with (uidsOf now es).
    induction es as [|e es IH].
    + split; intros _; constructor.
    + rewrite uidsOf_cons, fmap_cons, !NoDup_cons, IH, elem_of_cons.
      rewrite cert_uid_elem, domain_uid_elem. split.
      * intros (Hc & Hd & Hnd). split; [exact Hd | exact Hnd].
      * intros (Hn & Hnd). split; [| split; [exact Hn | exact Hnd]].
        intros [H | H]; [| exact (Hn H)].
        injection H as H. exact (uid_suffixes_differ _ _ H).
Qed.

End CalendarFacts.

(** ** More on the certificate chain *)

Section ChainFacts.

(** X13. A success with the zero time means that a certificate of the
    chain itself expires at the zero instant: dial errors, handshake
    errors and empty chains all come with an error. *)
Theorem zero_success_has_zero_certificate conn :
  getCertExpiration conn = (zero, None) ->
  exists certs c,
    conn = ConnectionState certs /\ c ∈ certs /\ NotAfter c = zero.
Proof.
  destruct conn as [err | err | certs]; simpl; try discriminate.
  destruct certs as [|c certs]; simpl; [discriminate |].
  intros H. injection H as H. exists (c :: certs).
  destruct (decide (Exists (fun c' => NotAfter c' = zero) (c :: certs)))
    as [Hex | Hno].
  - apply Exists_exists in Hex as (c' & Hin & Hz). eauto.
  - exfalso. apply not_Exists_Forall in Hno; [| intros c'; apply _].
    rewrite Forall_forall in Hno.
    assert (Hc : NotAfter c <> zero) by (apply (Hno c); left).
    assert (Hrest : forall c', c' ∈ certs -> NotAfter c' <> zero).
    { intros c' Hin. apply (Hno c'). right. exact Hin. }
    unfold minExpiresOf in H. simpl in H.
    change (minStep zero c) with (NotAfter c) in H.
    destruct (foldl_minStep_nonzero certs (NotAfter c) Hc Hrest) as [Hnz _].
    exact (Hnz H).
Qed.

Lemma zero_success_has_zero_certificate_witness :
  getCertExpiration (ConnectionState [mkCertificate zero]) = (zero, None)
  /\ exists certs c,
      ConnectionState [mkCertificate zero] = ConnectionState certs
      /\ c ∈ certs /\ NotAfter c = zero.
Proof.
  split; [reflexivity |].
  exact (zero_success_has_zero_certificate
           (ConnectionState [mkCertificate zero]) eq_refl).
Defined.

(** X14. For a chain that is not empty and in which no certificate
    expires at the zero instant, the call succeeds with the least
    [NotAfter] of the chain. *)
Theorem least_NotAfter_of_chain certs :
  certs <> [] ->
  (forall c, c ∈ certs -> NotAfter c <> zero) ->
  getCertExpiration (ConnectionState certs) = (minExpiresOf certs, None)
  /\ is_min_NotAfter (minExpiresOf certs) certs.
Proof.
  intros Hne Hnz.
  destruct (getCertExpiration_min certs Hne Hnz) as (m & Hm & Hmin).
  destruct certs as [|c certs]; [congruence |].
  simpl in Hm. injection Hm as <-.
  split; [reflexivity | exact Hmin].
Qed.

Lemma least_NotAfter_of_chain_witness :
  [mkCertificate (Date 2026 3 1); mkCertificate (Date 2030 1 1)] <> []
  /\ (forall c,
         c ∈ [mkCertificate (Date 2026 3 1); mkCertificate (Date 2030 1 1)] ->
         NotAfter c <> zero)
  /\ getCertExpiration
       (ConnectionState
          [mkCertificate (Date 2026 3 1); mkCertificate (Date 2030 1 1)])
     = (minExpiresOf
          [mkCertificate (Date 2026 3 1); mkCertificate (Date 2030 1 1)], None)
  /\ is_min_NotAfter
       (minExpiresOf
          [mkCertificate (Date 2026 3 1); mkCertificate (Date 2030 1 1)])
       [mkCertificate (Date 2026 3 1); mkCertificate (Date 2030 1 1)].
Proof.
  assert (H1 : [mkCertificate (Date 2026 3 1); mkCertificate (Date 2030 1 1)]
               <> []) by discriminate.
  assert (H2 : forall c,
             c ∈ [mkCertificate (Date 2026 3 1); mkCertificate (Date 2030 1 1)] ->
             NotAfter c <> zero).
  { intros c Hc.
    repeat (apply elem_of_cons in Hc as [-> | Hc];
            [vm_compute; discriminate |]).
    inversion Hc. }
  split; [exact H1 |]. split; [exact H2 |].
  exact (least_NotAfter_of_chain _ H1 H2).
Defined.

End ChainFacts.

(** ** More on the scan of a registry response *)

Section ScanFacts.

Variable ToLower : string -> string.
Variable ParseAny : string -> Time * error.

Lemma scanOffsets_sound text n : forall i d,
  scanOffsets ParseAny text i n = Return (Some d) ->
  exists j, i <= j < i + n /\ parseAt ParseAny text j = Some d.
Proof.
  induction n as [|n IH]; intros i d; simpl; [discriminate |].
  unfold parseAt at 1.
  destruct (sliceFrom text i) as [str|] eqn:Hstr; [| discriminate].
  destruct (ParseAny str) as [d' [msg|]] eqn:Hp.
  - intros H. destruct (IH _ _ H) as (j & Hj & Hd).
    exists j. split; [lia | exact Hd].
  - intros [= <-]. exists i. split; [lia |].
    unfold parseAt. rewrite Hstr, Hp. reflexivity.
Qed.

Lemma scanKeywords_sound text line keywords d :
  scanKeywords ParseAny text line keywords = Return (Some d) ->
  existsb (Contains line) keywords = true
  /\ exists j, j < String.length line /\ parseAt ParseAny text j = Some d.
Proof.
  induction keywords as [|keyword keywords IH]; simpl; [discriminate |].
  destruct (Contains line keyword); simpl.
  - destruct (scanOffsets ParseAny text 0 (String.length line))
      as [[d'|]|] eqn:Hs.
    + intros [= <-]. split; [reflexivity |].
      destruct (scanOffsets_sound _ _ _ _ Hs) as (j & Hj & Hd).
      exists j. split; [lia | exact Hd].
    + intros H. split; [reflexivity |]. apply IH. exact H.
    + discriminate.
  - exact IH.
Qed.

Lemma scanKeywords_no_keyword text line keywords :
  existsb (Contains line) keywords = false ->
  scanKeywords ParseAny text line keywords = Return None.
Proof.
  induction keywords as [|keyword keywords IH]; simpl; [reflexivity |].
  destruct (Contains line keyword); simpl; [discriminate | exact IH].
Qed.

Lemma scanLines_sound lines : forall d,
  scanLines ToLower ParseAny lines = Return (Some d) ->
  exists text i,
    text ∈ lines /\ keywordLine ToLower text = true
    /\ i < String.length (ToLower text)
    /\ parseAt ParseAny text i = Some d.
Proof.
  induction lines as [|text lines IH]; intros d; cbn [scanLines];
    [discriminate |].
  destruct (scanKeywords ParseAny text (ToLower text) expirationKeywords)
    as [[d'|]|] eqn:Hk.
  - intros [= <-].
    destruct (scanKeywords_sound _ _ _ _ Hk) as (Hkey & j & Hj & Hd).
    exists text, j. split; [left |]. split; [exact Hkey |].
    split; [exact Hj | exact Hd].
  - intros H. destruct (IH _ H) as (t & i & Hin & Hrest).
    exists t, i. split; [right; exact Hin | exact Hrest].
  - discriminate.
Qed.

Lemma scanLines_no_keyword lines :
  (forall text, text ∈ lines -> keywordLine ToLower text = false) ->
  scanLines ToLower ParseAny lines = Return None.
Proof.
  induction lines as [|text lines IH]; intros Hno; cbn [scanLines];
    [reflexivity |].
  rewrite scanKeywords_no_keyword by (apply Hno; left).
  apply IH. intros t Hin. apply Hno. right. exact Hin.
Qed.

Lemma scanLines_returns lines :
  (forall text, text ∈ lines ->
                String.length (ToLower text) <= S (String.length text)) ->
  exists r, scanLines ToLower ParseAny lines = Return r.
Proof.
  induction lines as [|text lines IH]; intros Hlen; cbn [scanLines];
    [eauto |].
  rewrite scanKeywords_spec by (apply Hlen; left).
  destruct (if existsb (Contains (ToLower text)) expirationKeywords
            then firstParse ParseAny text (seq 0 (String.length (ToLower text)))
            else None); [eauto |].
  apply IH. intros t Hin. apply Hlen. right. exact Hin.
Qed.

(** X15. On a body whose lines keep their byte length when lower-cased,
    the call returns the first date, in line order and then in offset
    order, that parses on a line holding a keyword, with no error and
    nothing logged; when there is none it returns the zero time with the
    extraction error and logs the raw text once. *)
Theorem first_date_of_same_length_body domain text lines :
  (forall t, t ∈ lines -> String.length (ToLower t) = String.length t) ->
  getDomainExpiration ToLower ParseAny domain (Body text lines)
  = Return (match specScan ToLower ParseAny lines with
            | Some d => ((d, None), [])
            | None => ((zero, Some errCannotDetermine),
                       [CannotDetermine domain text])
            end).
Proof.
  intros Hlen. unfold getDomainExpiration.
  rewrite (scanLines_spec ToLower ParseAny lines Hlen).
  destruct (specScan ToLower ParseAny lines); reflexivity.
Qed.

(** X16. A body on which no line holds a keyword yields the extraction
    error whatever dates it contains and whatever lower-casing does to
    the length of its lines: the date parser decides nothing. *)
Theorem no_keyword_no_date domain text lines :
  (forall t, t ∈ lines -> keywordLine ToLower t = false) ->
  getDomainExpiration ToLower ParseAny domain (Body text lines)
  = Return ((zero, Some errCannotDetermine), [CannotDetermine domain text]).
Proof.
  intros Hno. unfold getDomainExpiration.
  rewrite (scanLines_no_keyword lines Hno). reflexivity.
Qed.

(** X17. On a body whose lines grow by at most one byte when lower-cased
    the call returns: the offset loop slices the original line at most
    at its end. *)
Theorem returns_when_growth_at_most_one domain text lines :
  (forall t, t ∈ lines ->
             String.length (ToLower t) <= S (String.length t)) ->
  exists r,
    getDomainExpiration ToLower ParseAny domain (Body text lines) = Return r.
Proof.
  intros Hlen. unfold getDomainExpiration.
  destruct (scanLines_returns lines Hlen) as [[d|] ->]; eauto.
Qed.

(** X18. A date that the call returns without error was parsed from
    the original text of a line whose lower-cased copy holds a keyword,
    at an offset below the length of that copy; nothing is logged
    then. *)
Theorem returned_date_was_parsed domain text lines d log :
  getDomainExpiration ToLower ParseAny domain (Body text lines)
  = Return ((d, None), log) ->
  log = []
  /\ exists line i,
      line ∈ lines /\ keywordLine ToLower line = true
      /\ i < String.length (ToLower line)
      /\ parseAt ParseAny line i = Some d.
Proof.
  unfold getDomainExpiration.
  destruct (scanLines ToLower ParseAny lines) as [[d'|]|] eqn:Hs;
    [| discriminate | discriminate].
  intros [= <- <-]. split; [reflexivity |].
  exact (scanLines_sound lines d' Hs).
Qed.

End ScanFacts.

Lemma first_date_of_same_length_body_witness :
  (forall t, t ∈ asciiLines ->
             String.length (ToLowerSample t) = String.length t)
  /\ getDomainExpiration ToLowerSample parseYMD "example.com"
       (Body "raw" asciiLines)
     = Return (match specScan ToLowerSample parseYMD asciiLines with
               | Some d => ((d, None), [])
               | None => ((zero, Some errCannotDetermine),
                          [CannotDetermine "example.com" "raw"])
               end).
Proof.
  assert (H : forall t, t ∈ asciiLines ->
                        String.length (ToLowerSample t) = String.length t).
  { intros t Ht.
    repeat (apply elem_of_cons in Ht as [-> | Ht]; [vm_compute; reflexivity |]).
    inversion Ht. }
  split; [exact H |].
  exact (first_date_of_same_length_body ToLowerSample parseYMD
           "example.com" "raw" asciiLines H).
Defined.

Lemma no_keyword_no_date_witness :
  (forall t, t ∈ plainLines -> keywordLine ToLowerSample t = false)
  /\ getDomainExpiration ToLowerSample parseYMD "example.com"
       (Body "raw" plainLines)
     = Return ((zero, Some errCannotDetermine),
               [CannotDetermine "example.com" "raw"]).
Proof.
  assert (H : forall t, t ∈ plainLines -> keywordLine ToLowerSample t = false).
  { intros t Ht.
    repeat (apply elem_of_cons in Ht as [-> | Ht]; [vm_compute; reflexivity |]).
    inversion Ht. }
  split; [exact H |].
  exact (no_keyword_no_date ToLowerSample parseYMD
           "example.com" "raw" plainLines H).
Defined.

Lemma returns_when_growth_at_most_one_witness :
  (forall t, t ∈ [grownLine] ->
             String.length (ToLowerSample t) <= S (String.length t))
  /\ exists r,
      getDomainExpiration ToLowerSample parseYMD "example.com"
        (Body "raw" [grownLine]) = Return r.
Proof.
  assert (H : forall t, t ∈ [grownLine] ->
                        String.length (ToLowerSample t) <= S (String.length t)).
  { intros t Ht. apply list_elem_of_singleton in Ht as ->.
    vm_compute. lia. }
  split; [exact H |].
  exact (returns_when_growth_at_most_one ToLowerSample parseYMD
           "example.com" "raw" [grownLine] H).
Defined.

Lemma returned_date_was_parsed_witness :
  getDomainExpiration ToLowerSample parseYMD "example.com"
    (Body "raw" asciiLines)
  = Return ((Date 2025 1 1, None), [])
  /\ @nil LogEntry = []
  /\ exists line i,
      line ∈ asciiLines /\ keywordLine ToLowerSample line = true
      /\ i < String.length (ToLowerSample line)
      /\ parseAt parseYMD line i = Some (Date 2025 1 1).
Proof.
  assert (H : getDomainExpiration ToLowerSample parseYMD "example.com"
                (Body "raw" asciiLines)
              = Return ((Date 2025 1 1, None), []))
    by (vm_compute; reflexivity).
  split; [exact H |].
  exact (returned_date_was_parsed ToLowerSample parseYMD
           "example.com" "raw" asciiLines (Date 2025 1 1) [] H).
Defined.

(** ** The text line of a report *)

Section TextFacts.

Variable timeString : Time -> string.

(** X19. The text line of a report is its four fields joined by tabs:
    when no field contains a tab, splitting the line at the tabs gives
    the name, the certificate date or error, the domain and the
    registration date or error back. *)
Theorem Text_fields e :
  (forall field, field ∈ textFields timeString e -> hasByte field tab = false) ->
  Split (Text timeString e) tab = textFields timeString e.
Proof.
  intros Hfields.
  change (Text timeString e)
    with (Join (textFields timeString e) (String tab EmptyString)).
  apply Split_Join; [discriminate |].
  intros field Hin. specialize (Hfields field Hin).
  unfold hasByte in Hfields.
  destruct (Count field tab); [reflexivity | discriminate].
Qed.

End TextFacts.

Lemma Text_fields_witness :
  (forall field, field ∈ textFields sampleTimeString sampleReport ->
                 hasByte field tab = false)
  /\ Split (Text sampleTimeString sampleReport) tab
     = textFields sampleTimeString sampleReport.
Proof.
  assert (H : forall field, field ∈ textFields sampleTimeString sampleReport ->
                            hasByte field tab = false).
  { intros field Hin.
    repeat (apply elem_of_cons in Hin as [-> | Hin]; [vm_compute; reflexivity |]).
    inversion Hin. }
  split; [exact H |].
  exact (Text_fields sampleTimeString sampleReport H).
Defined.

(** ** The order of the lookups *)

Section OrderFacts.

Context {World : Type}.
Variable getCertExpiration : string -> World -> (Time * error) * World.
Variable getDomainExpiration : string -> World -> (Time * error) * World.
Variable EffectiveTLDPlusOne : string -> string * error.
Variable rangeOrder : gmap string bool -> list string.


End OrderFacts.

(** ** A lookup that panics *)

Section UnwindingFacts.

Context {World : Type}.
Variable getCertExpiration : string -> World -> (Time * error) * World.
Variable getDomainExpiration :
  string -> World -> Outcome ((Time * error) * World).
Variable EffectiveTLDPlusOne : string -> string * error.
Variable rangeOrder : gmap string bool -> list string.

Local Abbreviation getExpirationsOutcome :=
  (Certexp.getExpirationsOutcome getCertExpiration getDomainExpiration
     EffectiveTLDPlusOne rangeOrder).
Local Abbreviation lookupLoopOutcome :=
  (Certexp.lookupLoopOutcome getDomainExpiration).
Local Abbreviation returned := (Certexp.returned getDomainExpiration).
Local Abbreviation probeAll := (Certexp.probeAll getCertExpiration).
Local Abbreviation apexSet := (Certexp.apexSet EffectiveTLDPlusOne).
Local Abbreviation withApex := (Certexp.withApex EffectiveTLDPlusOne).

(** The reports when the fourth loop starts. *)
Local Abbreviation drafts hostnames w :=
  (zip_with withApex hostnames
     (zip_with setCertificate (probeAll hostnames w).1
        (zip_with setName hostnames
           (replicate (length hostnames) zeroExpiration)))).

Lemma getExpirationsOutcome_loops hostnames w :
  getExpirationsOutcome hostnames w
  = lookupLoopOutcome (rangeOrder (apexSet hostnames))
      (mkRun (drafts hostnames w) [] (probeAll hostnames w).2).
Proof.
  unfold Certexp.getExpirationsOutcome.
  set (rv0 := replicate (length hostnames) zeroExpiration).
  assert (H0 : length rv0 = length hostnames) by apply length_replicate.
  rewrite (nameLoop_eq hostnames rv0 H0).
  assert (H1 : length (zip_with setName hostnames rv0) = length hostnames).
  { rewrite length_zip_with. lia. }
  rewrite (certLoop_eq getCertExpiration hostnames _ w H1).
  assert (H2 : length (zip_with setCertificate (probeAll hostnames w).1
                         (zip_with setName hostnames rv0))
               = length hostnames).
  { rewrite length_zip_with, probeAll_length. lia. }
  rewrite (domainLoop_eq EffectiveTLDPlusOne hostnames _ H2). reflexivity.
Qed.

Lemma getExpirations_loops hostnames w :
  getExpirations getCertExpiration returned EffectiveTLDPlusOne rangeOrder
                 hostnames w
  = lookupLoop returned (rangeOrder (apexSet hostnames))
      (mkRun (drafts hostnames w) [] (probeAll hostnames w).2).
Proof.
  unfold getExpirations.
  set (rv0 := replicate (length hostnames) zeroExpiration).
  assert (H0 : length rv0 = length hostnames) by apply length_replicate.
  rewrite (nameLoop_eq hostnames rv0 H0).
  assert (H1 : length (zip_with setName hostnames rv0) = length hostnames).
  { rewrite length_zip_with. lia. }
  rewrite (certLoop_eq getCertExpiration hostnames _ w H1).
  assert (H2 : length (zip_with setCertificate (probeAll hostnames w).1
                         (zip_with setName hostnames rv0))
               = length hostnames).
  { rewrite length_zip_with, probeAll_length. lia. }
  rewrite (domainLoop_eq EffectiveTLDPlusOne hostnames _ H2). reflexivity.
Qed.

Lemma lookupLoop_cons (f : string -> World -> (Time * error) * World)
    domain keys s :
  lookupLoop f (domain :: keys) s
  = lookupLoop f keys
      (let '(r, w') := f domain (world s) in
       mkRun (fanOut domain r (reports s)) (lookups s ++ [domain]) w').
Proof. reflexivity. Qed.

(** The loop with the panic returns what the loop over [returned]
    computes, and panics only where a lookup it makes panics. *)
Lemma lookupLoopOutcome_cases keys : forall s,
  match lookupLoopOutcome keys s with
  | Return s' => s' = lookupLoop returned keys s
  | Panic => exists d w', d ∈ keys /\ getDomainExpiration d w' = Panic
  end.
Proof.
  induction keys as [|domain keys IH]; intros s;
    cbn [Certexp.lookupLoopOutcome]; [reflexivity |].
  rewrite lookupLoop_cons.
  destruct (getDomainExpiration domain (world s)) as [[r w']|] eqn:Hd.
  - assert (Hret : returned domain (world s) = (r, w'))
      by (unfold Certexp.returned; rewrite Hd; reflexivity).
    rewrite Hret.
    specialize (IH (mkRun (fanOut domain r (reports s))
                          (lookups s ++ [domain]) w')).
    destruct (lookupLoopOutcome keys _) as [s'|].
    + exact IH.
    + destruct IH as (d & w1 & Hin & Hp).
      exists d, w1. split; [right; exact Hin | exact Hp].
  - exists domain, (world s). split; [left | exact Hd].
Qed.

(** C3. The claim has the call return one report per hostname and
    never fail as a whole.  [getExpirations] calls [getDomainExpiration]
    without a [recover]: when the lookup for the first domain that
    [range] picks panics, as the offset loop of whois.go does, the
    panic unwinds through the call and no slice is returned, whatever
    the other hostnames of the batch are. *)
Theorem getExpirations_unwinds hostnames w domain rest :
  rangeOrder (apexSet hostnames) = domain :: rest ->
  getDomainExpiration domain (probeAll hostnames w).2 = Panic ->
  getExpirationsOutcome hostnames w = Panic.
Proof.
  intros Hkeys Hpanic.
  rewrite getExpirationsOutcome_loops, Hkeys. simpl.
  rewrite Hpanic. reflexivity.
Qed.

(** X21. Every run of the call that returns is the run of the batch
    over the lookups' returned values, report for report, lookup for
    lookup and world for world; and the call panics only if the lookup
    for one of the apex domains of the batch panics. *)
Theorem returning_run_is_batch hostnames w :
  match getExpirationsOutcome hostnames w with
  | Return run =>
      run = getExpirations getCertExpiration returned EffectiveTLDPlusOne
                           rangeOrder hostnames w
  | Panic =>
      exists d w', d ∈ rangeOrder (apexSet hostnames)
                   /\ getDomainExpiration d w' = Panic
  end.
Proof.
  rewrite getExpirationsOutcome_loops, getExpirations_loops.
  apply lookupLoopOutcome_cases.
Qed.

End UnwindingFacts.

Lemma getExpirations_unwinds_witness :
  sampleOrder (apexSet sampleApex sampleHosts) = ["example.com"%string]
  /\ sampleWhoisLookup "example.com" (probeAll sampleCert sampleHosts 0).2
     = Panic
  /\ getExpirationsOutcome sampleCert sampleWhoisLookup sampleApex sampleOrder
       sampleHosts 0 = Panic.
Proof.
  assert (H1 : sampleOrder (apexSet sampleApex sampleHosts)
               = ["example.com"%string]) by (vm_compute; reflexivity).
  assert (H2 : sampleWhoisLookup "example.com"
                 (probeAll sampleCert sampleHosts 0).2 = Panic)
    by (vm_compute; reflexivity).
  split; [exact H1 |]. split; [exact H2 |].
  exact (getExpirations_unwinds sampleCert sampleWhoisLookup sampleApex
           sampleOrder sampleHosts 0 "example.com"%string [] H1 H2).
Defined.

(** ** The order of lookups and response *)

Section TracedFacts.

Context {World : Type}.
Variable getCertExpiration : string -> World -> (Time * error) * World.
Variable getDomainExpiration : string -> World -> (Time * error) * World.
Variable EffectiveTLDPlusOne : string -> string * error.
Variable rangeOrder : gmap string bool -> list string.
Variable NegotiateContentType : option string -> list string -> string -> string.
Variable ParseDuration : string -> Z * error.
Variable timeString : Time -> string.
Variable FormatDateField : string -> Time -> string * string.

Local Abbreviation tracedCert := (Handler.tracedCert getCertExpiration).
Local Abbreviation tracedDomain := (Handler.tracedDomain getDomainExpiration).
Local Abbreviation serveExpirationsTraced :=
  (Handler.serveExpirationsTraced getCertExpiration getDomainExpiration
     EffectiveTLDPlusOne rangeOrder NegotiateContentType ParseDuration
     timeString FormatDateField).

Lemma probeAll_traced hostnames : forall w tr,
  probeAll tracedCert hostnames (w, tr)
  = ((probeAll getCertExpiration hostnames w).1,
     ((probeAll getCertExpiration hostnames w).2,
      tr ++ (Probe <$> hostnames))).
Proof.
  induction hostnames as [|h hs IH]; intros w tr; simpl.
  - rewrite app_nil_r. reflexivity.
  - unfold Handler.tracedCert at 1. simpl.
    destruct (getCertExpiration h w) as [r w1].
    rewrite IH. destruct (probeAll getCertExpiration hs w1) as [rs w2].
    simpl. rewrite <- app_assoc. reflexivity.
Qed.

Lemma lookupAll_traced keys : forall w tr,
  lookupAll tracedDomain keys (w, tr)
  = ((lookupAll getDomainExpiration keys w).1,
     ((lookupAll getDomainExpiration keys w).2,
      tr ++ (Lookup <$> keys))).
Proof.
  induction keys as [|d keys IH]; intros w tr; simpl.
  - rewrite app_nil_r. reflexivity.
  - unfold Handler.tracedDomain at 1. simpl.
    destruct (getDomainExpiration d w) as [r w1].
    rewrite IH. destruct (lookupAll getDomainExpiration keys w1) as [rs w2].
    simpl. rewrite <- app_assoc. reflexivity.
Qed.

(** The world and the trace that the traced batch leaves behind. *)
Lemma traced_world hostnames w tr :
  let run := getExpirations getCertExpiration getDomainExpiration
               EffectiveTLDPlusOne rangeOrder hostnames w in
  world (getExpirations tracedCert tracedDomain EffectiveTLDPlusOne
                        rangeOrder hostnames (w, tr))
  = (world run, tr ++ (Probe <$> hostnames) ++ (Lookup <$> lookups run)).
Proof.
  simpl. rewrite !getExpirations_eq. simpl.
  rewrite probeAll_traced. simpl. rewrite lookupAll_traced. simpl.
  rewrite <- app_assoc. reflexivity.
Qed.


End TracedFacts.

